(** * dodo_detector: KeypointObjectDetector

    A shallow embedding of [dodo_detector/KeypointObjectDetector.py] and the
    properties of its feature-matching and localisation pipeline.

    Conventions of the embedding.
    - Python [int] is [Z]; numpy [int32] scalars are [Z] with the wrap-around
      of their arithmetic written out ([int32]); Python [float] (the distance
      of a [DMatch], the resize factors) is the kernel's binary64 [float].
    - Descriptor matrices are lists of rows of numpy [float32] values, as
      the arrays of OpenCV are: binary32 numbers ([spec_float] at precision
      24 and maximal exponent 128), with the correctly rounded addition and
      division of the normaliser written out; the sum of a row and the
      element-wise square root are numpy's.
    - A Python [str] is the string of the bytes of its UTF-8 encoding;
      indexing by character reads the bytes of one code point.
    - [self] is a record threaded through a state-and-exception monad
      together with the log of the calls made to OpenCV; a Python exception
      is a [Raise] that keeps the state reached so far.
    - OpenCV, numpy's element-wise primitives and the file system are
      collaborators: records of functions, bound once per section.
    - a Python [dict] that is iterated is an association list in insertion
      order; a [dict] that is only looked up is a [gmap].
    - the progress bar of [tqdm] and the colours, fonts and thicknesses of
      the overlay are left out. *)

From Stdlib Require Import ZArith QArith Qabs Lia Ascii String PrimFloat SpecFloat FloatOps.
From stdpp Require Import gmap strings list pretty.

Set Warnings "-inexact-float".
Local Open Scope Z_scope.

(** ** Python values and exceptions *)

Inductive exn : Type :=
| KeyError (key : string)
| IndexError
| AttributeError (attr : string)
| OSError (path : string)
| TypeError (op : string)
| CvError (fn : string).

Inductive result (A : Type) : Type :=
| Ok (a : A)
| Raise (e : exn).
Arguments Ok {A} a.
Arguments Raise {A} e.

(** numpy [int32] scalar arithmetic wraps around. *)
Definition int32 (z : Z) : Z := (z + 2 ^ 31) mod 2 ^ 32 - 2 ^ 31.
Definition int32_add (a b : Z) : Z := int32 (a + b).
Definition int32_sub (a b : Z) : Z := int32 (a - b).
Definition int32_mul (a b : Z) : Z := int32 (a * b).

(** [p[i:]] and [os.path.basename], [os.path.join] of [posixpath]. *)
Fixpoint rfind_slash (p : string) (i : nat) (last : nat) : nat :=
  match p with
  | EmptyString => last
  | String c p' =>
      rfind_slash p' (S i) (if Ascii.eqb c "/"%char then S i else last)
  end.

Fixpoint drop_string (n : nat) (p : string) : string :=
  match n, p with
  | O, _ => p
  | S n', String _ p' => drop_string n' p'
  | S _, EmptyString => EmptyString
  end.

Definition basename (p : string) : string :=
  drop_string (rfind_slash p 0 0) p.

Fixpoint ends_with_slash (p : string) : bool :=
  match p with
  | EmptyString => false
  | String c EmptyString => Ascii.eqb c "/"%char
  | String _ p' => ends_with_slash p'
  end.

Definition starts_with_slash (p : string) : bool :=
  match p with
  | String c _ => Ascii.eqb c "/"%char
  | EmptyString => false
  end.

Definition join (a b : string) : string :=
  if starts_with_slash b then b
  else if (String.eqb a "" || ends_with_slash a)%bool then a +:+ b
  else a +:+ "/" +:+ b.

(** ** Data of the detector *)

Record Image : Type := mkImage {
  shape : Z * Z * Z;            (* rows, columns, channels *)
  raster : list Z
}.

Record KeyPoint : Type := mkKeyPoint { pt : float * float }.

Record DMatch : Type := mkDMatch {
  queryIdx : nat;
  trainIdx : nat;
  distance : float
}.

(** numpy [float32]: binary32, the format of precision 24 and maximal
    exponent 128, with its correctly rounded operations. *)
Abbreviation float32 := spec_float.

Definition f32_add : float32 -> float32 -> float32 := SFadd 24 128.
Definition f32_div : float32 -> float32 -> float32 := SFdiv 24 128.

(** The [float32] nearest to a Python float. *)
Definition to_float32 (f : float) : float32 :=
  match Prim2SF f with
  | S754_finite s m e => binary_normalize 24 128 (cond_Zopp s (Z.pos m)) e s
  | x => x
  end.

Abbreviation descriptors := (list (list float32)).
Abbreviation Matrix := (list (list float)).
Abbreviation FeatureSet := (Image * list KeyPoint * option descriptors)%type.
Abbreviation rect := (Z * Z * Z * Z)%type.                 (* x, y, w, h *)
Abbreviation box := (Z * Z * Z * Z)%type.                  (* ymin, xmin, ymax, xmax *)
Abbreviation polygon := (list (Z * Z)).

Inductive detector_kind : Type := SIFT_create | SURF_create.
Inductive matcher_kind : Type := BFMatcher | FlannBasedMatcher.

(** The instance attributes.  [detector] and [matcher] are [None] when
    [__init__] never assigned them. *)
Record KeypointObjectDetector : Type := mkDetector {
  current_frame : Z;
  detector_type : string;
  database_path : string;
  min_points : Z;
  detector : option detector_kind;
  matcher : option matcher_kind;
  objects : list string;
  min_object_height : Z;
  min_object_width : Z;
  min_object_area : Z;
  object_counters : gmap string Z;
  object_features : list (string * list FeatureSet)
}.

(** ** Collaborators *)

Record OpenCV : Type := mkOpenCV {
  detectAndCompute : detector_kind -> Image -> list KeyPoint * option descriptors;
  knnMatch : matcher_kind -> descriptors -> descriptors -> list (list DMatch);
  findHomography : list (float * float) -> list (float * float) -> option Matrix;
  perspectiveTransform : list (Z * Z) -> Matrix -> list (float * float);
  imread : string -> option Image;
  resize : Image -> float -> float -> Image;
  polylines : Image -> polygon -> Image;
  putText : Image -> string -> Z * Z -> Image
}.

Record Numpy : Type := mkNumpy {
  np_sum : list float32 -> float32;     (* the sum of one row, in numpy's order *)
  np_sqrt : float32 -> float32;
  np_int32 : float -> Z
}.

Record FileSystem : Type := mkFileSystem {
  listdir : string -> option (list string);
  isfile : string -> bool
}.

(** The calls made to OpenCV, in program order. *)
Inductive call : Type :=
| CallImread (file : string)
| CallResize (img : Image) (fx fy : float)
| CallDetectAndCompute (img : Image)
| CallKnnMatch (des scene_des : descriptors)
| CallFindHomography (src_pts dst_pts : list (float * float))
| CallPerspectiveTransform (pts : list (Z * Z)) (M : option Matrix)
| CallPolylines (pts : polygon)
| CallPutText (text : string) (org : Z * Z).

Record world : Type := mkWorld {
  self : KeypointObjectDetector;
  calls : list call
}.

(** ** The monad of methods *)

Definition M (A : Type) : Type := world -> result A * world.

Definition ret {A} (a : A) : M A := fun w => (Ok a, w).
Definition raise {A} (e : exn) : M A := fun w => (Raise e, w).
Definition bind {A B} (m : M A) (k : A -> M B) : M B :=
  fun w => match m w with
           | (Ok a, w') => k a w'
           | (Raise e, w') => (Raise e, w')
           end.

Declare Scope py_scope.
Delimit Scope py_scope with py.
Notation "x <- m ;; k" := (bind m (fun x => k))
  (at level 100, m at next level, right associativity) : py_scope.
Notation "m ;;; k" := (bind m (fun _ => k))
  (at level 100, right associativity) : py_scope.
Local Open Scope py_scope.

Definition get_self : M KeypointObjectDetector := fun w => (Ok (self w), w).
Definition put_self (d : KeypointObjectDetector) : M unit :=
  fun w => (Ok tt, mkWorld d (calls w)).
Definition log (c : call) : M unit :=
  fun w => (Ok tt, mkWorld (self w) (calls w ++ [c])).

Definition set_current_frame (n : Z) (d : KeypointObjectDetector) :=
  mkDetector n (detector_type d) (database_path d) (min_points d) (detector d)
    (matcher d) (objects d) (min_object_height d) (min_object_width d)
    (min_object_area d) (object_counters d) (object_features d).

Definition set_object_counters (c : gmap string Z) (d : KeypointObjectDetector) :=
  mkDetector (current_frame d) (detector_type d) (database_path d) (min_points d)
    (detector d) (matcher d) (objects d) (min_object_height d)
    (min_object_width d) (min_object_area d) c (object_features d).

Definition set_object_features (f : list (string * list FeatureSet))
    (d : KeypointObjectDetector) :=
  mkDetector (current_frame d) (detector_type d) (database_path d) (min_points d)
    (detector d) (matcher d) (objects d) (min_object_height d)
    (min_object_width d) (min_object_area d) (object_counters d) f.

(** [d[k] = v] on a dict kept in insertion order. *)
Fixpoint dict_set {V} (k : string) (v : V) (d : list (string * V)) : list (string * V) :=
  match d with
  | [] => [(k, v)]
  | (k', v') :: d' =>
      if String.eqb k' k then (k, v) :: d' else (k', v') :: dict_set k v d'
  end.

(** [sequence[i]] for a non-negative [i]. *)
Definition getitem {A} (l : list A) (i : nat) : M A :=
  match l !! i with
  | Some a => ret a
  | None => raise IndexError
  end.

(** [[f(a) for a in l]] and the like: [f] on each element, in order. *)
Fixpoint for_each {A B} (f : A -> M B) (l : list A) : M (list B) :=
  match l with
  | [] => ret []
  | a :: l' => b <- f a ;; bs <- for_each f l' ;; ret (b :: bs)
  end.

(** [[kp[i].pt for i in idxs]]; [None] stands for the [IndexError]. *)
Definition keypoint_pts (kp : list KeyPoint) (idxs : list nat)
  : option (list (float * float)) :=
  mapM (fun i => pt <$> kp !! i) idxs.

Definition indexed {A} (o : option A) : M A :=
  match o with
  | Some a => ret a
  | None => raise IndexError
  end.

Definition len {A} (l : list A) : Z := Z.of_nat (length l).

Inductive flow (A : Type) : Type :=
| Continue
| Break
| Return (a : A).
Arguments Continue {A}.
Arguments Break {A}.
Arguments Return {A} a.

(** ** The methods of [KeypointObjectDetector] *)

(** [eps = 1e-7] *)
Definition eps : float := 1e-7.

(** [descs /= (descs.sum(axis=1, keepdims=True) + eps)]: the sums are a
    [float32] column, [eps] is added to it in [float32], and every entry is
    divided in place by the divisor of its row. *)
Definition l1_normalize (np : Numpy) (descs : descriptors) : descriptors :=
  map (fun row =>
         let divisor := f32_add (np_sum np row) (to_float32 eps) in
         map (fun x => f32_div x divisor) row)
      descs.

(** The ratio test of Lowe on the two nearest neighbours. *)
Definition ratio_test (m n : DMatch) : bool :=
  (distance m <? 0.7 * distance n)%float.

(** The loop that fills [good] from [matches]. *)
Fixpoint good_matches (matches : list (list DMatch)) : list DMatch :=
  match matches with
  | [] => []
  | [m; n] :: rest =>
      if ratio_test m n then m :: good_matches rest else good_matches rest
  | _ :: rest => good_matches rest
  end.

(** [_extract_rectangle]: [dst[x, 0]] for [x] in [range(4)]; [None] stands
    for the [IndexError] of a [dst] of fewer than four points. *)
Definition _extract_rectangle (dst : polygon) : option rect :=
  match dst with
  | p0 :: p1 :: p2 :: p3 :: _ =>
      let ys := [snd p1; snd p2; snd p3] in
      let xs := [fst p1; fst p2; fst p3] in
      let min_y := fold_left Z.min ys (snd p0) in
      let max_y := fold_left Z.max ys (snd p0) in
      let min_x := fold_left Z.min xs (fst p0) in
      let max_x := fold_left Z.max xs (fst p0) in
      Some (min_x, min_y, int32_sub max_x min_x, int32_sub max_y min_y)
  | _ => None
  end.

Section Methods.
Context (cv2 : OpenCV) (np : Numpy) (os : FileSystem).

(** [_rootsift]; on [descs = None] the right-hand side of line 67 is
    evaluated first, and [descs.sum] raises. *)
Definition _rootsift (kps : list KeyPoint) (descs : option descriptors)
  : M (list KeyPoint * option descriptors) :=
  match descs with
  | None => raise (AttributeError "sum")
  | Some descs =>
      let descs := l1_normalize np descs in
      let descs := map (map (np_sqrt np)) descs in
      ret (kps, Some descs)
  end.

(** [self.detector], [self.matcher]: attributes that may never have been set. *)
Definition self_detector : M detector_kind :=
  d <- get_self ;;
  match detector d with
  | Some k => ret k
  | None => raise (AttributeError "detector")
  end.

Definition self_matcher : M matcher_kind :=
  d <- get_self ;;
  match matcher d with
  | Some k => ret k
  | None => raise (AttributeError "matcher")
  end.

(** [self.detector.detectAndCompute(img, None)] followed by the RootSIFT
    normalisation when it applies. *)
Definition extract (img : Image) : M (list KeyPoint * option descriptors) :=
  det <- self_detector ;;
  log (CallDetectAndCompute img) ;;;
  let '(kps, descs) := detectAndCompute cv2 det img in
  d <- get_self ;;
  if (String.eqb (detector_type d) "RootSIFT" && (0 <? len kps))%bool
  then _rootsift kps descs
  else ret (kps, descs).

(** The body of the loop of [_load_features]. *)
Definition load_image (img_file : string) : M FeatureSet :=
  log (CallImread img_file) ;;;
  match imread cv2 img_file with
  | None => raise (AttributeError "shape")
  | Some img =>
      img <- (if 1000 <? fst (fst (shape img))
              then log (CallResize img 0.3 0.3) ;;;
                   ret (resize cv2 img 0.3 0.3)
              else ret img) ;;
      kd <- extract img ;;
      ret (img, fst kd, snd kd)
  end.

Definition _load_features (object_name : string) : M (list FeatureSet) :=
  d <- get_self ;;
  let dir := database_path d +:+ object_name +:+ "/" in
  match listdir os dir with
  | None => raise (OSError dir)
  | Some names =>
      let img_files :=
        map (join dir) (filter (fun f => isfile os (join dir f) = true) names) in
      for_each load_image img_files
  end.

(** [self.object_counters[name] += 1] *)
Definition increment_counter (name : string) : M unit :=
  d <- get_self ;;
  match object_counters d !! name with
  | None => raise (KeyError name)
  | Some c =>
      put_self (set_object_counters (<[name := c + 1]> (object_counters d)) d)
  end.

(** The corners of the template: [pts], from [obj_img.shape] or from
    [coordinates]. *)
Definition template (obj_img : Image) (coordinates : option rect) : list (Z * Z) :=
  let '(w, h) := match coordinates with
                 | None => let '(h, w, _) := shape obj_img in (w, h)
                 | Some (_, _, w, h) => (w, h)
                 end in
  [(0, 0); (0, h - 1); (w - 1, h - 1); (w - 1, 0)].

(** [np.int32(cv2.perspectiveTransform(pts, M))] *)
Definition project (pts : list (Z * Z)) (H : Matrix) : polygon :=
  map (fun p => (np_int32 np (fst p), np_int32 np (snd p)))
      (perspectiveTransform cv2 pts H).

(** Lines 118-137: the counter, the homography, the projected polygon and
    its rectangle.  [cv2.perspectiveTransform] takes a matrix: on the [None]
    of a failed fit it raises. *)
Definition localize (name : string) (obj_img : Image) (kp scene_kp : list KeyPoint)
    (good : list DMatch) (coordinates : option rect) : M (polygon * rect) :=
  increment_counter name ;;;
  src_pts <- indexed (keypoint_pts kp (map queryIdx good)) ;;
  dst_pts <- indexed (keypoint_pts scene_kp (map trainIdx good)) ;;
  log (CallFindHomography src_pts dst_pts) ;;;
  let H := findHomography cv2 src_pts dst_pts in
  let pts := template obj_img coordinates in
  log (CallPerspectiveTransform pts H) ;;;
  match H with
  | None => raise (CvError "perspectiveTransform")
  | Some H =>
      let dst := project pts H in
      r <- indexed (_extract_rectangle dst) ;;
      ret (dst, r)
  end.

(** Lines 139-144: the test on the size of the rectangle. *)
Definition too_small (d : KeypointObjectDetector) (r : rect) : bool :=
  let '(_, _, w, h) := r in
  ((w <? min_object_width d) || (h <? min_object_height d)
   || (int32_mul w h <? min_object_area d))%bool.

(** The body of the loop of [_detect_object] once an object was detected
    (lines 118-144). *)
Definition detected (name : string) (obj_img : Image) (kp scene_kp : list KeyPoint)
    (good : list DMatch) (coordinates : option rect) : M (flow (polygon * rect)) :=
  r <- localize name obj_img kp scene_kp good coordinates ;;
  d <- get_self ;;
  if too_small d (snd r) then ret Break else ret (Return r).

(** The body of the loop of [_detect_object]. *)
Definition candidate (name : string) (img_feature : FeatureSet)
    (scene : FeatureSet) (coordinates : option rect) : M (flow (polygon * rect)) :=
  let '(scene_img, scene_kp, scene_des) := scene in
  let '(obj_img, kp, des) := img_feature in
  match des, scene_des with
  | Some des, Some scene_des =>
      if ((0 <? len des) && (0 <? len scene_des))%bool then
        mt <- self_matcher ;;
        log (CallKnnMatch des scene_des) ;;;
        let matches := knnMatch cv2 mt des scene_des in
        let good := good_matches matches in
        d <- get_self ;;
        if min_points d <? len good
        then detected name obj_img kp scene_kp good coordinates
        else ret Continue
      else ret Continue
  | _, _ => ret Continue
  end.

(** [_detect_object]; the pair [(None, None)] is [None]. *)
Fixpoint _detect_object (name : string) (img_features : list FeatureSet)
    (scene : FeatureSet) (coordinates : option rect)
  : M (option (polygon * rect)) :=
  match img_features with
  | [] => ret None
  | img_feature :: rest =>
      r <- candidate name img_feature scene coordinates ;;
      match r with
      | Continue => _detect_object name rest scene coordinates
      | Break => ret None
      | Return v => ret (Some v)
      end
  end.

(** [s[0]] on a string: its first code point, that is the first byte and
    the continuation bytes ([10xxxxxx]) that follow it, as many as the first
    byte announces; [None] stands for the [IndexError] on [""]. *)
Definition is_continuation (c : ascii) : bool :=
  ((128 <=? N_of_ascii c) && (N_of_ascii c <? 192))%N.

Definition sequence_length (c : ascii) : nat :=
  if (N_of_ascii c <? 192)%N then 1
  else if (N_of_ascii c <? 224)%N then 2
  else if (N_of_ascii c <? 240)%N then 3
  else 4.

Fixpoint take_continuation (n : nat) (s : string) : string :=
  match n, s with
  | S n', String c s' =>
      if is_continuation c then String c (take_continuation n' s') else EmptyString
  | _, _ => EmptyString
  end.

Definition first_char (s : string) : option string :=
  match s with
  | String c s' => Some (String c (take_continuation (sequence_length c - 1) s'))
  | EmptyString => None
  end.

(** Lines 164-179: the body of [if rct is not None]. *)
Definition record_detection (obj_features : string) (homography : polygon)
    (rct : rect) (frame : Image) (detected_objects : gmap string (list box))
  : M (Image * gmap string (list box)) :=
  let '(x, y, w, h) := rct in
  let ymin := y in
  let xmin := x in
  let ymax := int32_add y h in
  let xmax := int32_add x w in
  object_name <- indexed (first_char obj_features) ;;
  let detected_objects :=
    <[object_name :=
        default [] (detected_objects !! object_name)
        ++ [(ymin, xmin, ymax, xmax)]]> detected_objects in
  p0 <- getitem homography 0 ;;
  p1 <- getitem homography 1 ;;
  let text_point := (fst p0, snd p1) in
  log (CallPolylines homography) ;;;
  let frame := polylines cv2 frame homography in
  d <- get_self ;;
  match object_counters d !! object_name with
  | None => raise (KeyError object_name)
  | Some c =>
      let text := object_name +:+ ": " +:+ pretty c in
      log (CallPutText text text_point) ;;;
      ret (putText cv2 frame text text_point, detected_objects)
  end.

(** The loop of [from_image] over the keys of [self.object_features]. *)
Fixpoint from_image_loop (items : list (string * list FeatureSet))
    (frame : Image) (scene_kp : list KeyPoint) (scene_des : option descriptors)
    (detected_objects : gmap string (list box))
  : M (Image * gmap string (list box)) :=
  match items with
  | [] => ret (frame, detected_objects)
  | (obj_features, features) :: rest =>
      r <- _detect_object obj_features features (frame, scene_kp, scene_des) None ;;
      match r with
      | None => from_image_loop rest frame scene_kp scene_des detected_objects
      | Some (homography, rct) =>
          fd <- record_detection obj_features homography rct frame detected_objects ;;
          from_image_loop rest (fst fd) scene_kp scene_des (snd fd)
      end
  end.

Definition from_image (frame : Image) : M (Image * gmap string (list box)) :=
  d <- get_self ;;
  put_self (set_current_frame (current_frame d + 1) d) ;;;
  scene <- extract frame ;;
  d <- get_self ;;
  from_image_loop (object_features d) frame (fst scene) (snd scene) ∅.

(** The second loop of [__init__]. *)
Fixpoint load_objects (objs : list string) : M unit :=
  match objs with
  | [] => ret tt
  | obj :: rest =>
      features <- _load_features obj ;;
      d <- get_self ;;
      put_self (set_object_features (dict_set obj features (object_features d)) d) ;;;
      load_objects rest
  end.

Definition __init__ (database_path detector_type matcher_type : string) : M unit :=
  let detector :=
    if (String.eqb detector_type "SIFT" || String.eqb detector_type "RootSIFT")%bool
    then Some SIFT_create
    else if String.eqb detector_type "SURF" then Some SURF_create
    else None in
  let matcher :=
    if String.eqb matcher_type "BF" then Some BFMatcher
    else if String.eqb matcher_type "FLANN" then Some FlannBasedMatcher
    else None in
  match listdir os database_path with
  | None => raise (OSError database_path)
  | Some entries =>
      let objects :=
        map basename (filter (fun d => d ≠ "IGNORE") entries) in
      let object_counters :=
        fold_left (fun m ob => <[ob := 0]> m) objects (∅ : gmap string Z) in
      put_self (mkDetector 0 detector_type database_path 200 detector matcher
                  objects 10 10 (10 * 10) object_counters []) ;;;
      load_objects objects
  end.

End Methods.

(** ** A concrete collaborator set, for running the methods

    The projective map and the truncating cast are the real ones; the
    matcher pairs every reference row [i] with the scene rows [i] and
    [i + 1] at the two distances it is given, and the model fit answers
    with the matrix it is given. *)
Module Scenario.

Definition Z2float (z : Z) : float := SF2Prim (binary_normalize prec emax z 0 false).
Definition Z2float32 (z : Z) : float32 := binary_normalize 24 128 z 0 false.

(** Truncation towards zero, as the cast to [int32] does on values in range. *)
Definition trunc (f : float) : Z :=
  match Prim2SF f with
  | S754_finite s m e =>
      let v := if 0 <=? e then Z.pos m * 2 ^ e else Z.pos m / 2 ^ (- e) in
      int32 (if s then - v else v)
  | _ => 0
  end.

Definition apply_homography (H : Matrix) (p : Z * Z) : float * float :=
  let x := Z2float (fst p) in
  let y := Z2float (snd p) in
  match H with
  | [[a; b; c]; [d; e; f]; [g; h; i]] =>
      let w := (g * x + h * y + i)%float in
      (((a * x + b * y + c) / w)%float, ((d * x + e * y + f) / w)%float)
  | _ => (x, y)
  end.

Definition scale (s : float) : Matrix :=
  [[s; 0; 0]; [0; s; 0]; [0; 0; 1]]%float.

Definition neighbours (best second : float) (n : nat) (i : nat) : list DMatch :=
  [mkDMatch i i best; mkDMatch i (S i mod n) second].

Abbreviation files := (list (string * Image)).

Definition cv2 (best second : float) (fit : option Matrix) (disk : files) : OpenCV :=
  {| detectAndCompute := fun _ img =>
       let n := Z.to_nat (Z.min 250 (fst (fst (shape img)) * snd (fst (shape img)) / 40)) in
       if (n =? 0)%nat then ([], None)
       else (map (fun i => mkKeyPoint (Z2float (Z.of_nat i), Z2float (Z.of_nat i))) (seq 0 n),
             Some (map (fun i => [Z2float32 (Z.of_nat i); Z2float32 1]) (seq 0 n)));
     knnMatch := fun _ des scene_des =>
       map (neighbours best second (length scene_des)) (seq 0 (length des));
     findHomography := fun _ _ => fit;
     perspectiveTransform := fun pts H => map (apply_homography H) pts;
     imread := fun file => snd <$> (snd <$> list_find (fun e => fst e = file) disk);
     resize := fun img fx fy =>
       let '(h, w, c) := shape img in
       mkImage (trunc (Z2float h * fy)%float, trunc (Z2float w * fx)%float, c) (raster img);
     polylines := fun img pts => mkImage (shape img) (raster img ++ map fst pts ++ map snd pts);
     putText := fun img text org => mkImage (shape img) (raster img ++ [fst org; snd org]) |}.

(** The sum of a row taken from left to right, and the correctly rounded
    square root. *)
Definition np : Numpy :=
  {| np_sum := fun row => fold_left f32_add row (S754_zero false);
     np_sqrt := SFsqrt 24 128;
     np_int32 := trunc |}.

Abbreviation tree := (list (string * list string)).

Definition os (dirs : tree) (regular : list string) : FileSystem :=
  {| listdir := fun p => snd <$> (snd <$> list_find (fun e => fst e = p) dirs);
     isfile := fun p => bool_decide (p ∈ regular) |}.

Definition blank : KeypointObjectDetector :=
  mkDetector 0 "" "" 0 None None [] 0 0 0 ∅ [].

Definition start : world := mkWorld blank [].

Definition image100 : Image := mkImage (100, 100, 3) [].
Definition wide : Image := mkImage (500, 2000, 3) [].
Definition tall : Image := mkImage (1200, 800, 3) [].
Definition blank_frame : Image := mkImage (4, 4, 3) [].

Definition disk : files :=
  [("db/mug/a.png", image100); ("db/IGNORE/z.png", image100);
   ("db2/mug/a.png", image100); ("db2/m/b.png", image100);
   ("db3/wide/w.png", wide); ("db3/wide/t.png", tall)].

(** [db/]: one class [mug] and the directory [IGNORE]; [db2/]: the classes
    [mug] and [m]. *)
Definition fs : FileSystem :=
  os [("db/", ["mug"; "IGNORE"]); ("db/mug/", ["a.png"]); ("db/IGNORE/", ["z.png"]);
      ("db2/", ["mug"; "m"]); ("db2/mug/", ["a.png"]); ("db2/m/", ["b.png"]);
      ("db3/", ["wide"]); ("db3/wide/", ["w.png"; "t.png"])]
     ["db/mug/a.png"; "db/IGNORE/z.png"; "db2/mug/a.png"; "db2/m/b.png";
      "db3/wide/w.png"; "db3/wide/t.png"].

(** The scene is the reference image and the fit is the identity. *)
Definition cv2_same : OpenCV := cv2 0 1 (Some (scale 1)) disk.
(** The fit shrinks the template to a box of 4 by 4. *)
Definition cv2_tiny : OpenCV := cv2 0 1 (Some (scale 0.05)) disk.
(** The fit fails. *)
Definition cv2_nofit : OpenCV := cv2 0 1 None disk.
(** No neighbour passes the ratio test. *)
Definition cv2_far : OpenCV := cv2 0.9 1 (Some (scale 1)) disk.

(** The detector that [KeypointObjectDetector(root, 'SIFT', 'BF')] builds. *)
Definition loaded (cv : OpenCV) (root : string) : world :=
  snd (__init__ cv np fs root "SIFT" "BF" start).

Definition kps100 : list KeyPoint := fst (detectAndCompute cv2_same SIFT_create image100).
Definition des100 : descriptors :=
  default [] (snd (detectAndCompute cv2_same SIFT_create image100)).
Definition reference : FeatureSet := (image100, kps100, Some des100).
Definition good100 : list DMatch := good_matches (knnMatch cv2_same BFMatcher des100 des100).
Definition pts100 : list (float * float) :=
  default [] (keypoint_pts kps100 (map queryIdx good100)).

Definition tall_run : result FeatureSet * world :=
  load_image cv2_same np "db3/wide/t.png" (loaded cv2_same "db/").
Definition tall_features : FeatureSet :=
  match fst tall_run with
  | Ok fs => fs
  | Raise _ => (tall, [], None)
  end.

End Scenario.


(** ** Vocabulary of the statements *)

(** The world after more calls to OpenCV. *)
Definition logged (w : world) (cs : list call) : world :=
  mkWorld (self w) (calls w ++ cs).

(** The world after [self.object_counters[name] += 1] on a counter at [c]. *)
Definition bumped (name : string) (c : Z) (w : world) : world :=
  mkWorld (set_object_counters (<[name := c + 1]> (object_counters (self w))) (self w))
          (calls w).

(** The assignments of [__init__] to the thresholds. *)
Definition reference_configuration (d : KeypointObjectDetector) : Prop :=
  min_points d = 200 /\ min_object_width d = 10 /\ min_object_height d = 10
  /\ min_object_area d = 100.

(** The calls made between two worlds. *)
Definition new_calls (w w' : world) : list call :=
  drop (length (calls w)) (calls w').

Definition is_find_homography (c : call) : bool :=
  match c with CallFindHomography _ _ => true | _ => false end.

Definition is_knn_match (c : call) : bool :=
  match c with CallKnnMatch _ _ => true | _ => false end.

Definition is_resize (c : call) : bool :=
  match c with CallResize _ _ _ => true | _ => false end.

(** A method that leaves the attributes of [self] as they were. *)
Definition keeps_self {A} (m : M A) : Prop :=
  forall w r w', m w = (r, w') -> self w' = self w.

(** A reference image whose good matches against the scene pass the
    threshold of line 117. *)
Definition passes (cv2 : OpenCV) (mt : matcher_kind) (min_points : Z)
    (scene f : FeatureSet) : bool :=
  match snd f, snd scene with
  | Some des, Some scene_des =>
      (0 <? len des) && (0 <? len scene_des)
      && (min_points <? len (good_matches (knnMatch cv2 mt des scene_des)))
  | _, _ => false
  end.

(** A name as [os.listdir] returns them: no separator in it. *)
Fixpoint slash_free (s : string) : bool :=
  match s with
  | EmptyString => true
  | String c s' => negb (Ascii.eqb c "/"%char) && slash_free s'
  end.

(** The image that [_load_features] stores for a file read as [img]. *)
Definition stored (cv2 : OpenCV) (img : Image) : Image :=
  if 1000 <? fst (fst (shape img)) then resize cv2 img 0.3 0.3 else img.

(** A state of the detector that differs from [d] in its detection counters
    at most, and counts the same classes. *)
Definition counters_only (d d' : KeypointObjectDetector) : Prop :=
  set_object_counters (object_counters d') d = d'
  /\ forall k, is_Some (object_counters d' !! k) <-> is_Some (object_counters d !! k).

(** A state of the detector that differs from [d] in its feature store at
    most. *)
Definition features_only (d d' : KeypointObjectDetector) : Prop :=
  set_object_features (object_features d') d = d'.

(** A coordinate far enough from the ends of [int32] for a difference of
    two of them not to wrap. *)
Definition in_range (z : Z) : Prop := - 2 ^ 30 <= z < 2 ^ 30.

(** A box [(ymin, xmin, ymax, xmax)] of [from_image] made from a rectangle
    that passed the size test of line 140. *)
Definition well_sized (d : KeypointObjectDetector) (b : box) : Prop :=
  let '(ymin, xmin, ymax, xmax) := b in
  exists bw bh,
    min_object_width d <= bw /\ min_object_height d <= bh
    /\ min_object_area d <= int32_mul bw bh
    /\ xmax = int32_add xmin bw /\ ymax = int32_add ymin bh.

(** An entry [k: boxes] of a detections map as [from_image] files them in
    a detector [d]; the key is one character: [k[0]] is [k] itself. *)
Definition filed (d : KeypointObjectDetector) (k : string) (boxes : list box) : Prop :=
  boxes ≠ [] /\ first_char k = Some k
  /\ is_Some (object_counters d !! k)
  /\ (exists name, name ∈ map fst (object_features d) /\ first_char name = Some k)
  /\ Forall (well_sized d) boxes.





Definition count_calls (p : call -> bool) (cs : list call) : nat :=
  length (filter (fun c => p c = true) cs).

Definition is_detect_and_compute (c : call) : bool :=
  match c with CallDetectAndCompute _ => true | _ => false end.

(** More of the concrete collaborators: a database [db4/] whose one class
    directory [cup] holds a subdirectory and no file, a database [db5/]
    whose class [doc] holds a file that is no image, and a reference image
    of 60 by 60 pixels, which has 90 keypoints. *)
Module Fixtures.
Import Scenario.

Definition fs_bare : FileSystem :=
  os [("db4/", ["cup"]); ("db4/cup/", ["old"]); ("db4/cup/old/", []);
      ("db5/", ["doc"]); ("db5/doc/", ["notes.txt"])]
     ["db5/doc/notes.txt"].

Definition image60 : Image := mkImage (60, 60, 3) [].

Definition small_reference : FeatureSet :=
  (image60, fst (detectAndCompute cv2_same SIFT_create image60),
   snd (detectAndCompute cv2_same SIFT_create image60)).

(** The detector that [KeypointObjectDetector('db4/', 'ORB', 'BF')] builds. *)
Definition orb : world := snd (__init__ cv2_same np fs_bare "db4/" "ORB" "BF" start).

(** A detector of type [RootSIFT] with no class, and a detector on [db5/]
    before its features are loaded. *)
Definition rootsift_world : world :=
  mkWorld (mkDetector 0 "RootSIFT" "db4/" 200 (Some SIFT_create) (Some BFMatcher)
             [] 10 10 100 ∅ []) [].

Definition doc_world : world :=
  mkWorld (mkDetector 0 "SIFT" "db5/" 200 (Some SIFT_create) (Some BFMatcher)
             ["doc"] 10 10 100 {[ "doc" := 0 ]} []) [].

Definition image8 : Image := mkImage (8, 10, 3) [].

End Fixtures.

(** * Properties *)

(** ** The ratio test (lines 109-114) *)

Lemma good_matches_app (a b : list (list DMatch)) :
  good_matches (a ++ b) = good_matches a ++ good_matches b.
Proof.
  induction a as [|match_ a IH]; [reflexivity|].
  destruct match_ as [|m [|n [|o match_]]]; simpl; try exact IH.
  destruct (ratio_test m n); simpl; now rewrite IH.
Qed.

Lemma good_matches_skip (match_ : list DMatch) (rest : list (list DMatch)) :
  length match_ ≠ 2%nat -> good_matches (match_ :: rest) = good_matches rest.
Proof.
  destruct match_ as [|m [|n [|o match_]]]; simpl; intros Hlen;
    reflexivity || (exfalso; apply Hlen; reflexivity).
Qed.

(** C5.  A query descriptor whose [knnMatch] entry holds exactly two
    neighbours [m], [n] contributes [m] to [good] exactly when
    [m.distance < 0.7 * n.distance], in place and in order; an entry of any
    other length (fewer than two neighbours among them) contributes
    nothing.  The test is strict: at second-best distance [d], a best
    distance [0.69 * d] is accepted, [0.71 * d] and [0.7 * d] itself are
    rejected (checked at [d] = 1, 2, 0.5, 100, 250.25 and 0.003). *)
Theorem ratio_test_accepts_iff (pre post : list (list DMatch)) :
  (forall m n : DMatch,
      good_matches (pre ++ [m; n] :: post)
      = good_matches pre
          ++ (if (distance m <? 0.7 * distance n)%float then [m] else [])
          ++ good_matches post)
  /\ (forall match_ : list DMatch,
         length match_ ≠ 2%nat ->
         good_matches (pre ++ match_ :: post) = good_matches pre ++ good_matches post)
  /\ Forall (fun d : float =>
               forall q t t' : nat,
                 good_matches [[mkDMatch q t (0.69 * d); mkDMatch q t' d]]
                 = [mkDMatch q t (0.69 * d)]
                 /\ good_matches [[mkDMatch q t (0.71 * d); mkDMatch q t' d]] = []
                 /\ good_matches [[mkDMatch q t (0.7 * d); mkDMatch q t' d]] = [])
       [1; 2; 0.5; 100; 250.25; 0.003]%float.
Proof.
  split; [|split].
  - intros m n. rewrite good_matches_app. simpl. unfold ratio_test.
    now destruct (distance m <? 0.7 * distance n)%float.
  - intros match_ Hlen. rewrite good_matches_app.
    now rewrite (good_matches_skip match_ post Hlen).
  - repeat constructor.
Qed.

Lemma ratio_test_accepts_iff_witness :
  good_matches ([] ++ [mkDMatch 0 0 1.5] :: [[mkDMatch 1 1 0.25; mkDMatch 1 2 1]])
  = good_matches [] ++ good_matches [[mkDMatch 1 1 0.25; mkDMatch 1 2 1]].
Proof.
  apply (proj1 (proj2 (ratio_test_accepts_iff [] [[mkDMatch 1 1 0.25; mkDMatch 1 2 1]]))).
  simpl. lia.
Defined.

(** ** The normaliser (lines 62-70) *)







(** ** One candidate of [_detect_object] (lines 103-144) *)

Lemma len_pos {A} (l : list A) : (0 <? len l) = true <-> l ≠ [].
Proof.
  unfold len. rewrite Z.ltb_lt. destruct l; simpl; split; intros H; try congruence; lia.
Qed.

Lemma new_calls_logged (w : world) (cs : list call) : new_calls w (logged w cs) = cs.
Proof. unfold new_calls, logged. simpl. apply drop_app_length. Qed.

Lemma logged_logged (w : world) (cs cs' : list call) :
  logged (logged w cs) cs' = logged w (cs ++ cs').
Proof. unfold logged. simpl. now rewrite <- app_assoc. Qed.

Lemma too_small_spec (d : KeypointObjectDetector) (x y bw bh : Z) :
  reference_configuration d ->
  bw < 10 \/ bh < 10 \/ bw * bh < 100 ->
  too_small d (x, y, bw, bh) = true.
Proof.
  intros (_ & Hw & Hh & _) H. unfold too_small. rewrite Hw, Hh.
  destruct (Z.ltb_spec bw 10) as [|Hbw]; [reflexivity|].
  destruct (Z.ltb_spec bh 10) as [|Hbh]; [reflexivity|].
  exfalso. destruct H as [H|[H|H]]; nia.
Qed.

Section Candidate.
Context (cv2 : OpenCV) (np : Numpy).

Lemma candidate_skip name obj_img kp des scene_img scene_kp scene_des coords w :
  des = None \/ des = Some [] \/ scene_des = None \/ scene_des = Some [] ->
  candidate cv2 np name (obj_img, kp, des) (scene_img, scene_kp, scene_des) coords w
  = (Ok Continue, w).
Proof.
  intros H. unfold candidate.
  destruct des as [[|row des]|], scene_des as [[|srow scene_des]|];
    try reflexivity.
  destruct H as [H|[H|[H|H]]]; congruence.
Qed.

Lemma candidate_run name obj_img kp (d : descriptors) scene_img scene_kp
    (sd : descriptors) coords w mt :
  matcher (self w) = Some mt -> d ≠ [] -> sd ≠ [] ->
  candidate cv2 np name (obj_img, kp, Some d) (scene_img, scene_kp, Some sd) coords w
  = if min_points (self w) <? len (good_matches (knnMatch cv2 mt d sd))
    then detected cv2 np name obj_img kp scene_kp
           (good_matches (knnMatch cv2 mt d sd)) coords (logged w [CallKnnMatch d sd])
    else (Ok Continue, logged w [CallKnnMatch d sd]).
Proof.
  intros Hm Hd Hsd. unfold candidate.
  apply len_pos in Hd, Hsd. rewrite Hd, Hsd. simpl.
  unfold bind, self_matcher, get_self, bind. rewrite Hm. simpl.
  now destruct (min_points (self w) <? _).
Qed.

Lemma localize_run name obj_img kp scene_kp good coords w c src dst :
  object_counters (self w) !! name = Some c ->
  keypoint_pts kp (map queryIdx good) = Some src ->
  keypoint_pts scene_kp (map trainIdx good) = Some dst ->
  localize cv2 np name obj_img kp scene_kp good coords w
  = let pts := template obj_img coords in
    let H := findHomography cv2 src dst in
    let w' := logged (bumped name c w)
                [CallFindHomography src dst; CallPerspectiveTransform pts H] in
    match H with
    | None => (Raise (CvError "perspectiveTransform"), w')
    | Some H =>
        match _extract_rectangle (project cv2 np pts H) with
        | Some r => (Ok (project cv2 np pts H, r), w')
        | None => (Raise IndexError, w')
        end
    end.
Proof.
  intros Hc Hsrc Hdst. unfold localize, bind, increment_counter, get_self, bind.
  rewrite Hc. simpl. rewrite Hsrc, Hdst. simpl.
  unfold logged, bumped. simpl. rewrite <- app_assoc. simpl.
  destruct (findHomography cv2 src dst) as [H|]; [|reflexivity].
  now destruct (_extract_rectangle _).
Qed.

(** What a successful [localize] did. *)
Lemma localize_ok_inv name obj_img kp scene_kp good coords w dst r w' :
  localize cv2 np name obj_img kp scene_kp good coords w = (Ok (dst, r), w') ->
  exists c src dstp H,
    object_counters (self w) !! name = Some c
    /\ keypoint_pts kp (map queryIdx good) = Some src
    /\ keypoint_pts scene_kp (map trainIdx good) = Some dstp
    /\ findHomography cv2 src dstp = Some H
    /\ dst = project cv2 np (template obj_img coords) H
    /\ _extract_rectangle dst = Some r
    /\ w' = logged (bumped name c w)
              [CallFindHomography src dstp;
               CallPerspectiveTransform (template obj_img coords) (Some H)].
Proof.
  intros Hrun.
  destruct (object_counters (self w) !! name) as [c|] eqn:Hc.
  2:{ unfold localize, bind, increment_counter, get_self, bind in Hrun.
      rewrite Hc in Hrun. discriminate. }
  destruct (keypoint_pts kp (map queryIdx good)) as [src|] eqn:Hsrc.
  2:{ unfold localize, bind, increment_counter, get_self, bind in Hrun.
      rewrite Hc in Hrun. simpl in Hrun. rewrite Hsrc in Hrun. discriminate. }
  destruct (keypoint_pts scene_kp (map trainIdx good)) as [dstp|] eqn:Hdst.
  2:{ unfold localize, bind, increment_counter, get_self, bind in Hrun.
      rewrite Hc in Hrun. simpl in Hrun. rewrite Hsrc, Hdst in Hrun. discriminate. }
  rewrite (localize_run _ _ _ _ _ _ _ _ _ _ Hc Hsrc Hdst) in Hrun. cbv zeta in Hrun.
  destruct (findHomography cv2 src dstp) as [H|] eqn:HH; [|discriminate].
  destruct (_extract_rectangle _) as [r0|] eqn:Hr; [|discriminate].
  inversion Hrun; subst. exists c, src, dstp, H. now rewrite Hr.
Qed.

Lemma detect_object_cons name f rest scene coords w :
  _detect_object cv2 np name (f :: rest) scene coords w
  = match candidate cv2 np name f scene coords w with
    | (Ok Continue, w1) => _detect_object cv2 np name rest scene coords w1
    | (Ok Break, w1) => (Ok None, w1)
    | (Ok (Return v), w1) => (Ok (Some v), w1)
    | (Raise e, w1) => (Raise e, w1)
    end.
Proof.
  simpl. unfold bind.
  destruct (candidate cv2 np name f scene coords w) as [[[| |v]|e] w1]; reflexivity.
Qed.

(** C6.  When either descriptor set is absent or empty the candidate is
    passed over with the world as it was: no call to the matcher, no
    exception, no counter touched, and [_detect_object] goes on with the
    next reference image; when it is the scene's descriptor set, the whole
    call returns [(None, None)] the same way. *)
Theorem empty_descriptors_no_match name obj_img kp des scene_img scene_kp scene_des
    coords w :
  des = None \/ des = Some [] \/ scene_des = None \/ scene_des = Some [] ->
  candidate cv2 np name (obj_img, kp, des) (scene_img, scene_kp, scene_des) coords w
  = (Ok Continue, w)
  /\ (forall rest,
         _detect_object cv2 np name ((obj_img, kp, des) :: rest)
           (scene_img, scene_kp, scene_des) coords w
         = _detect_object cv2 np name rest (scene_img, scene_kp, scene_des) coords w)
  /\ (scene_des = None \/ scene_des = Some [] ->
      forall img_features,
        _detect_object cv2 np name img_features (scene_img, scene_kp, scene_des) coords w
        = (Ok None, w)).
Proof.
  intros H. split; [|split].
  - now apply candidate_skip.
  - intros rest. rewrite detect_object_cons. now rewrite candidate_skip.
  - intros Hs img_features. induction img_features as [|[[img k] ds] rest IH].
    + reflexivity.
    + rewrite detect_object_cons, candidate_skip; [exact IH|tauto].
Qed.

(** C4.  With the thresholds of [__init__] (200, 10, 10, 100), for a
    candidate whose descriptor sets are both non-empty: when the good
    matches number at most 200 the candidate is passed over after the one
    call to the matcher and the next reference image is tried; a homography
    is fitted only when they number more than 200; and when they do and the
    rectangle of the projected template has width below 10, height below 10
    or area below 100, [_detect_object] returns [(None, None)] in the world
    that candidate left, whatever reference images remain. *)
Theorem threshold_and_size_rejection name obj_img kp (d : descriptors)
    scene_img scene_kp (sd : descriptors) coords w mt rest :
  reference_configuration (self w) ->
  matcher (self w) = Some mt -> d ≠ [] -> sd ≠ [] ->
  let f := (obj_img, kp, Some d) in
  let scene := (scene_img, scene_kp, Some sd) in
  let good := good_matches (knnMatch cv2 mt d sd) in
  let w1 := logged w [CallKnnMatch d sd] in
  (len good <= 200 ->
   candidate cv2 np name f scene coords w = (Ok Continue, w1)
   /\ _detect_object cv2 np name (f :: rest) scene coords w
      = _detect_object cv2 np name rest scene coords w1)
  /\ (forall r w', candidate cv2 np name f scene coords w = (r, w') ->
        existsb is_find_homography (new_calls w w') = true -> 200 < len good)
  /\ (200 < len good ->
      forall dst x y bw bh w2,
        localize cv2 np name obj_img kp scene_kp good coords w1
        = (Ok (dst, (x, y, bw, bh)), w2) ->
        bw < 10 \/ bh < 10 \/ bw * bh < 100 ->
        candidate cv2 np name f scene coords w = (Ok Break, w2)
        /\ _detect_object cv2 np name (f :: rest) scene coords w = (Ok None, w2)
        /\ filter (fun c => is_knn_match c = true) (new_calls w w2) = [CallKnnMatch d sd]).
Proof.
  intros Hcfg Hm Hd Hsd f scene good w1.
  pose proof (candidate_run name obj_img kp d scene_img scene_kp sd coords w mt Hm Hd Hsd)
    as Hrun.
  fold good w1 f scene in Hrun.
  destruct Hcfg as (Hmin & Hrest). rewrite Hmin in Hrun.
  split; [|split].
  - intros Hle. apply Z.ltb_ge in Hle. rewrite Hle in Hrun.
    split; [exact Hrun|]. rewrite detect_object_cons. now rewrite Hrun.
  - intros r w' Hc Hcall. destruct (Z.ltb_spec 200 (len good)) as [|Hle]; [assumption|].
    rewrite Hrun in Hc. inversion Hc; subst.
    unfold w1 in Hcall. rewrite new_calls_logged in Hcall. discriminate.
  - intros Hgt dst x y bw bh w2 Hloc Hsmall.
    apply Z.ltb_lt in Hgt. rewrite Hgt in Hrun.
    assert (Hdet : detected cv2 np name obj_img kp scene_kp good coords w1 = (Ok Break, w2)).
    { assert (Hcfg2 : reference_configuration (self w2)).
      { destruct (localize_ok_inv _ _ _ _ _ _ _ _ _ _ Hloc)
          as (c & src & dstp & H & _ & _ & _ & _ & _ & _ & ->).
        unfold reference_configuration. simpl. tauto. }
      unfold detected, bind. rewrite Hloc. cbn beta iota. unfold get_self.
      cbn [snd]. now rewrite (too_small_spec _ x y bw bh Hcfg2 Hsmall). }
    rewrite Hdet in Hrun. split; [exact Hrun|]. split.
    + rewrite detect_object_cons. now rewrite Hrun.
    + destruct (localize_ok_inv _ _ _ _ _ _ _ _ _ _ Hloc)
        as (c & src & dstp & H & _ & _ & _ & _ & _ & _ & ->).
      unfold w1, bumped, logged, new_calls. simpl.
      rewrite <- app_assoc, drop_app_length. reflexivity.
Qed.

(** C3, as the code has it.  When the good matches of a candidate pass the
    threshold and the fit of the homography fails, the counter of the class
    has been incremented and the projection of the template raises:
    [_detect_object] ends in that exception, whatever reference images
    remain, and so does the loop of [from_image] that called it. *)
Theorem failed_homography_raises name obj_img kp (d : descriptors) scene_img scene_kp
    (sd : descriptors) coords w mt c src dst rest :
  matcher (self w) = Some mt -> d ≠ [] -> sd ≠ [] ->
  let good := good_matches (knnMatch cv2 mt d sd) in
  min_points (self w) < len good ->
  object_counters (self w) !! name = Some c ->
  keypoint_pts kp (map queryIdx good) = Some src ->
  keypoint_pts scene_kp (map trainIdx good) = Some dst ->
  findHomography cv2 src dst = None ->
  let w' := logged (bumped name c w)
              [CallKnnMatch d sd; CallFindHomography src dst;
               CallPerspectiveTransform (template obj_img coords) None] in
  _detect_object cv2 np name ((obj_img, kp, Some d) :: rest)
    (scene_img, scene_kp, Some sd) coords w
  = (Raise (CvError "perspectiveTransform"), w')
  /\ (coords = None ->
      forall items detected_objects,
        from_image_loop cv2 np ((name, (obj_img, kp, Some d) :: rest) :: items)
          scene_img scene_kp (Some sd) detected_objects w
        = (Raise (CvError "perspectiveTransform"), w')).
Proof.
  intros Hm Hd Hsd good Hgt Hc Hsrc Hdst Hfit w'.
  assert (Hdet : _detect_object cv2 np name ((obj_img, kp, Some d) :: rest)
                   (scene_img, scene_kp, Some sd) coords w
                 = (Raise (CvError "perspectiveTransform"), w')).
  { rewrite detect_object_cons, (candidate_run _ _ _ _ _ _ _ _ _ _ Hm Hd Hsd).
    fold good. apply Z.ltb_lt in Hgt. rewrite Hgt.
    unfold detected, bind.
    rewrite (localize_run name obj_img kp scene_kp good coords _ c src dst); try assumption.
    cbv zeta. rewrite Hfit. unfold w', bumped, logged. simpl.
    now rewrite <- app_assoc. }
  split; [exact Hdet|].
  intros -> items detected_objects. simpl. unfold bind.
  simpl in Hdet. unfold bind in Hdet. now rewrite Hdet.
Qed.

End Candidate.

(** ** Methods that leave the attributes of [self] alone *)

Lemma keeps_self_ret {A} (a : A) : keeps_self (ret a).
Proof. intros w r w' H. now inversion H. Qed.

Lemma keeps_self_raise {A} (e : exn) : keeps_self (@raise A e).
Proof. intros w r w' H. now inversion H. Qed.

Lemma keeps_self_log (c : call) : keeps_self (log c).
Proof. intros w r w' H. now inversion H. Qed.

Lemma keeps_self_get_self : keeps_self get_self.
Proof. intros w r w' H. now inversion H. Qed.

Lemma keeps_self_bind {A B} (m : M A) (k : A -> M B) :
  keeps_self m -> (forall a, keeps_self (k a)) -> keeps_self (bind m k).
Proof.
  intros Hm Hk w r w' H. unfold bind in H.
  destruct (m w) as [[a|e] w1] eqn:E.
  - rewrite (Hk a w1 r w' H). exact (Hm _ _ _ E).
  - inversion H; subst. exact (Hm _ _ _ E).
Qed.

Lemma keeps_self_indexed {A} (o : option A) : keeps_self (indexed o).
Proof. destruct o; [apply keeps_self_ret | apply keeps_self_raise]. Qed.

Lemma keeps_self_getitem {A} (l : list A) (i : nat) : keeps_self (getitem l i).
Proof.
  unfold getitem. destruct (l !! i); [apply keeps_self_ret | apply keeps_self_raise].
Qed.

Lemma keeps_self_for_each {A B} (f : A -> M B) (l : list A) :
  (forall a, keeps_self (f a)) -> keeps_self (for_each f l).
Proof.
  intros Hf. induction l as [|a l IH]; simpl.
  - apply keeps_self_ret.
  - apply keeps_self_bind; [apply Hf|]. intros b.
    apply keeps_self_bind; [exact IH|]. intros bs. apply keeps_self_ret.
Qed.

Ltac keeps :=
  repeat first
    [ apply keeps_self_ret | apply keeps_self_raise | apply keeps_self_log
    | apply keeps_self_get_self | apply keeps_self_indexed
    | apply keeps_self_getitem
    | apply keeps_self_bind; [|intros]
    | match goal with
      | |- keeps_self (match ?x with _ => _ end) => destruct x
      end ].

Section Counters.
Context (cv2 : OpenCV) (np : Numpy).

Lemma keeps_self_rootsift kps descs : keeps_self (_rootsift np kps descs).
Proof. unfold _rootsift. keeps. Qed.

Lemma keeps_self_extract img : keeps_self (extract cv2 np img).
Proof.
  unfold extract, self_detector. keeps. apply keeps_self_rootsift.
Qed.

Lemma keeps_self_load_image img_file : keeps_self (load_image cv2 np img_file).
Proof. unfold load_image. keeps; apply keeps_self_rootsift. Qed.

Lemma keeps_self_record_detection obj_features homography rct frame detected_objects :
  keeps_self (record_detection cv2 obj_features homography rct frame detected_objects).
Proof. unfold record_detection. keeps. Qed.

(** ** The counter of a class across [_detect_object] *)

Lemma localize_self name obj_img kp scene_kp good coords w r w' :
  localize cv2 np name obj_img kp scene_kp good coords w = (r, w') ->
  (object_counters (self w) !! name = None /\ w' = w /\ r = Raise (KeyError name))
  \/ (exists c, object_counters (self w) !! name = Some c
                /\ self w' = self (bumped name c w)).
Proof.
  intros H. unfold localize, bind, increment_counter, get_self, bind in H.
  destruct (object_counters (self w) !! name) as [c|] eqn:Hc; simpl in H.
  - right. exists c. split; [reflexivity|].
    destruct (keypoint_pts kp _); simpl in H; [|now inversion H].
    destruct (keypoint_pts scene_kp _); simpl in H; [|now inversion H].
    destruct (findHomography cv2 _ _); simpl in H; [|now inversion H].
    destruct (_extract_rectangle _); simpl in H; now inversion H.
  - left. now inversion H.
Qed.

Lemma detected_self name obj_img kp scene_kp good coords w r w' :
  detected cv2 np name obj_img kp scene_kp good coords w = (r, w') ->
  (object_counters (self w) !! name = None /\ w' = w /\ r = Raise (KeyError name))
  \/ (exists c, object_counters (self w) !! name = Some c
                /\ self w' = self (bumped name c w) /\ r ≠ Ok Continue).
Proof.
  intros H. unfold detected, bind in H.
  destruct (localize cv2 np name obj_img kp scene_kp good coords w)
    as [[lr|e] w1] eqn:Hl; apply localize_self in Hl.
  - destruct Hl as [(_ & _ & ?)|(c & Hc & Hs)]; [discriminate|].
    right. exists c. unfold get_self in H.
    destruct (too_small _ _); inversion H; subst; repeat split; auto; discriminate.
  - inversion H; subst.
    destruct Hl as [(Hn & Hw & He)|(c & Hc & Hs)].
    + left. inversion He; subst. auto.
    + right. exists c. repeat split; auto; discriminate.
Qed.

Lemma candidate_passes name f scene coords w r w' mt c :
  matcher (self w) = Some mt ->
  object_counters (self w) !! name = Some c ->
  candidate cv2 np name f scene coords w = (r, w') ->
  if passes cv2 mt (min_points (self w)) scene f
  then self w' = self (bumped name c w) /\ r ≠ Ok Continue
  else self w' = self w /\ r = Ok Continue.
Proof.
  intros Hm Hc H.
  destruct f as [[obj_img kp] [d|]], scene as [[scene_img scene_kp] [sd|]];
    unfold passes; cbn [fst snd];
    try (rewrite candidate_skip in H by tauto; now inversion H).
  destruct d as [|row d].
  { rewrite candidate_skip in H by tauto. now inversion H. }
  destruct sd as [|srow sd].
  { rewrite candidate_skip in H by tauto. inversion H; subst.
    now rewrite andb_false_r. }
  rewrite (candidate_run cv2 np _ _ _ _ _ _ _ _ _ mt Hm) in H by discriminate.
  replace (0 <? len (row :: d)) with true by reflexivity.
  replace (0 <? len (srow :: sd)) with true by reflexivity.
  cbn [andb].
  destruct (min_points (self w) <? _).
  - apply detected_self in H. cbn [self logged] in H.
    destruct H as [(Hn & _)|(c' & Hc' & Hs & Hr)]; [congruence|].
    split; [|exact Hr]. rewrite Hs. unfold bumped. cbn [self logged]. congruence.
  - now inversion H.
Qed.

Lemma candidate_self name f scene coords w r w' :
  candidate cv2 np name f scene coords w = (r, w') ->
  (self w' = self w /\ (r = Ok Continue \/ exists e, r = Raise e))
  \/ (exists c, object_counters (self w) !! name = Some c
                /\ self w' = self (bumped name c w) /\ r ≠ Ok Continue).
Proof.
  intros H.
  destruct f as [[obj_img kp] [d|]], scene as [[scene_img scene_kp] [sd|]];
    try (rewrite candidate_skip in H by tauto; inversion H; left; auto).
  destruct d as [|row d].
  { rewrite candidate_skip in H by tauto. inversion H; left; auto. }
  destruct sd as [|srow sd].
  { rewrite candidate_skip in H by tauto. inversion H; left; auto. }
  destruct (matcher (self w)) as [mt|] eqn:Hm.
  - rewrite (candidate_run cv2 np _ _ _ _ _ _ _ _ _ mt Hm) in H by discriminate.
    destruct (min_points (self w) <? _).
    + apply detected_self in H. cbn [self logged] in H.
      destruct H as [(Hn & -> & ->)|(c & Hc & Hs & Hr)]; [left; eauto|].
      right. exists c. repeat split; auto.
    + inversion H; left; auto.
  - unfold candidate in H.
    replace (0 <? len (row :: d)) with true in H by reflexivity.
    replace (0 <? len (srow :: sd)) with true in H by reflexivity.
    cbn [andb] in H. unfold bind, self_matcher, get_self, bind in H.
    rewrite Hm in H. inversion H; left; eauto.
Qed.

Lemma detect_object_self name feats scene coords :
  forall w r w',
    _detect_object cv2 np name feats scene coords w = (r, w') ->
    (self w' = self w /\ forall v, r ≠ Ok (Some v))
    \/ (exists c, object_counters (self w) !! name = Some c
                  /\ self w' = self (bumped name c w)).
Proof.
  induction feats as [|f feats IH]; intros w r w' H.
  - inversion H; subst. left. split; [reflexivity|discriminate].
  - rewrite detect_object_cons in H.
    destruct (candidate cv2 np name f scene coords w) as [r1 w1] eqn:Hc.
    apply candidate_self in Hc.
    destruct Hc as [[Hs [->|[e ->]]]|(c & Hc & Hs & Hr)].
    + apply IH in H. unfold bumped in *. cbn [self] in *. rewrite Hs in H. exact H.
    + inversion H; subst. left. split; [assumption|discriminate].
    + right. exists c. split; [assumption|].
      destruct r1 as [[| |v]|e]; [congruence|inversion H; subst; assumption ..].
Qed.

Lemma detect_object_counters name feats scene coords mt :
  forall w r w' c,
    matcher (self w) = Some mt ->
    object_counters (self w) !! name = Some c ->
    _detect_object cv2 np name feats scene coords w = (r, w') ->
    if existsb (passes cv2 mt (min_points (self w)) scene) feats
    then self w' = self (bumped name c w)
    else self w' = self w /\ r = Ok None.
Proof.
  induction feats as [|f feats IH]; intros w r w' c Hm Hc H.
  - now inversion H.
  - rewrite detect_object_cons in H. cbn [existsb].
    destruct (candidate cv2 np name f scene coords w) as [r1 w1] eqn:Hcand.
    pose proof (candidate_passes _ _ _ _ _ _ _ _ _ Hm Hc Hcand) as Hp.
    destruct (passes cv2 mt (min_points (self w)) scene f); cbn [orb].
    + destruct Hp as [Hs Hr].
      destruct r1 as [[| |v]|e]; [congruence|inversion H; subst; assumption ..].
    + destruct Hp as [Hs ->].
      specialize (IH w1 r w' c). rewrite Hs in IH.
      unfold bumped in *. cbn [self] in *. rewrite Hs in IH. now apply IH.
Qed.

Lemma bumped_counters name c w :
  object_counters (self (bumped name c w)) = <[name := c + 1]> (object_counters (self w)).
Proof. reflexivity. Qed.

Lemma detect_frames name feats coords :
  forall scenes w rs w' c,
    object_counters (self w) !! name = Some c ->
    for_each (fun scene => _detect_object cv2 np name feats scene coords) scenes w
    = (Ok rs, w') ->
    Forall is_Some rs ->
    object_counters (self w') !! name = Some (c + len scenes).
Proof.
  induction scenes as [|scene scenes IH]; intros w rs w' c Hc H Hall.
  - inversion H; subst. unfold len. simpl. now rewrite Z.add_0_r.
  - simpl in H. unfold bind in H.
    destruct (_detect_object cv2 np name feats scene coords w) as [[r1|e] w1] eqn:H1;
      [|discriminate].
    destruct (for_each _ scenes w1) as [[rs1|e] w2] eqn:H2; [|discriminate].
    inversion H; subst. inversion Hall as [|? ? [v ->] Hall']; subst.
    apply detect_object_self in H1.
    destruct H1 as [[_ Hn]|(c' & Hc' & Hs)]; [now destruct (Hn v)|].
    assert (Hc1 : object_counters (self w1) !! name = Some (c + 1)).
    { rewrite Hs, bumped_counters, lookup_insert_eq. congruence. }
    rewrite (IH w1 rs1 w' (c + 1) Hc1 H2 Hall').
    f_equal. unfold len. cbn [length]. lia.
Qed.

(** C2, as the code has it.  The counter of a class is incremented once by
    a call of [_detect_object] exactly when some reference image has its
    good matches pass the threshold of line 117 (the matcher being set and
    the counter present): by every call that returns a localisation, and
    also by a call whose candidate is then rejected for its size.  No call
    decrements a counter or adds more than one to it, and across calls on
    [N] scenes that each return a localisation the counter of the class
    grows by exactly [N]. *)
Theorem counter_once_per_detected_object name feats coords :
  (forall scene w r w',
      _detect_object cv2 np name feats scene coords w = (r, w') ->
      (forall v, r = Ok (Some v) ->
                 exists c, object_counters (self w) !! name = Some c
                           /\ object_counters (self w')
                              = <[name := c + 1]> (object_counters (self w)))
      /\ (forall k n, object_counters (self w) !! k = Some n ->
                      exists n', object_counters (self w') !! k = Some n'
                                 /\ n <= n' <= n + 1)
      /\ (forall mt c,
             matcher (self w) = Some mt ->
             object_counters (self w) !! name = Some c ->
             object_counters (self w')
             = if existsb (passes cv2 mt (min_points (self w)) scene) feats
               then <[name := c + 1]> (object_counters (self w))
               else object_counters (self w)))
  /\ (forall scenes w rs w' c,
         object_counters (self w) !! name = Some c ->
         for_each (fun scene => _detect_object cv2 np name feats scene coords) scenes w
         = (Ok rs, w') ->
         Forall is_Some rs ->
         object_counters (self w') !! name = Some (c + len scenes)).
Proof.
  split.
  - intros scene w r w' H. split; [|split].
    + intros v ->. apply detect_object_self in H.
      destruct H as [[_ Hn]|(c & Hc & Hs)]; [now destruct (Hn v)|].
      exists c. now rewrite Hs.
    + intros k n Hk. apply detect_object_self in H.
      destruct H as [[Hs _]|(c & Hc & Hs)]; rewrite Hs.
      * exists n. split; [assumption|lia].
      * rewrite bumped_counters. destruct (decide (name = k)) as [->|Hne].
        -- exists (c + 1). rewrite lookup_insert_eq. split; [reflexivity|].
           assert (c = n) by congruence. lia.
        -- exists n. rewrite lookup_insert_ne by assumption. split; [assumption|lia].
    + intros mt c Hm Hc.
      pose proof (detect_object_counters _ _ _ _ _ _ _ _ _ Hm Hc H) as Hp.
      destruct (existsb _ feats).
      * now rewrite Hp.
      * destruct Hp as [Hs _]. now rewrite Hs.
  - apply detect_frames.
Qed.

(** ** The counters across one frame *)

Lemma from_image_loop_counters :
  forall items frame scene_kp scene_des detected_objects w r w',
    NoDup (map fst items) ->
    from_image_loop cv2 np items frame scene_kp scene_des detected_objects w = (r, w') ->
    forall k,
      object_counters (self w') !! k = object_counters (self w) !! k
      \/ (exists c, object_counters (self w) !! k = Some c
                    /\ object_counters (self w') !! k = Some (c + 1)
                    /\ k ∈ map fst items).
Proof.
  induction items as [|[name feats] items IH];
    intros frame scene_kp scene_des detected_objects w r w' Hnd H k.
  - inversion H; subst. now left.
  - inversion Hnd as [|? ? Hnotin Hnd']; subst.
    cbn [from_image_loop] in H. unfold bind in H.
    destruct (_detect_object cv2 np name feats (frame, scene_kp, scene_des) None w)
      as [r1 w1] eqn:H1.
    assert (Hstep : forall w2, self w2 = self w1 ->
              (object_counters (self w2) !! k = object_counters (self w) !! k
               \/ (exists c, object_counters (self w) !! k = Some c
                             /\ object_counters (self w2) !! k = Some (c + 1)
                             /\ k = name))
              /\ (k ≠ name ->
                  object_counters (self w2) !! k = object_counters (self w) !! k)).
    { intros w2 ->. apply detect_object_self in H1.
      destruct H1 as [[Hs _]|(c & Hc & Hs)]; rewrite Hs.
      - split; [now left|reflexivity].
      - rewrite bumped_counters. split.
        + destruct (decide (name = k)) as [->|Hne].
          * right. exists c. now rewrite lookup_insert_eq.
          * left. now rewrite lookup_insert_ne.
        + intros Hne. now rewrite lookup_insert_ne. }
    assert (Hrest : forall frame' dets' w2 ,
              self w2 = self w1 ->
              from_image_loop cv2 np items frame' scene_kp scene_des dets' w2 = (r, w') ->
              object_counters (self w') !! k = object_counters (self w) !! k
              \/ (exists c, object_counters (self w) !! k = Some c
                            /\ object_counters (self w') !! k = Some (c + 1)
                            /\ k ∈ map fst ((name, feats) :: items))).
    { intros frame' dets' w2 Hs2 Hloop.
      destruct (Hstep w2 Hs2) as [Hk Hother].
      destruct (IH _ _ _ _ _ _ _ Hnd' Hloop k) as [Heq|(c & Hc & Hc' & Hin)].
      - rewrite Heq. destruct Hk as [Hk|(c & Hc & Hc' & ->)]; [now left|].
        right. exists c. repeat split; auto. cbn [map fst]. apply elem_of_cons. now left.
      - assert (Hne : k ≠ name) by (intros ->; contradiction).
        right. exists c. rewrite <- (Hother Hne). repeat split; auto.
        cbn [map fst]. apply elem_of_cons. now right. }
    assert (Hstop : forall w2, self w2 = self w1 -> w' = w2 ->
              object_counters (self w') !! k = object_counters (self w) !! k
              \/ (exists c, object_counters (self w) !! k = Some c
                            /\ object_counters (self w') !! k = Some (c + 1)
                            /\ k ∈ map fst ((name, feats) :: items))).
    { intros w2 Hs2 ->. destruct (Hstep w2 Hs2) as [[Hk|(c & Hc & Hc' & ->)] _];
        [now left|].
      right. exists c. repeat split; auto. cbn [map fst]. apply elem_of_cons. now left. }
    destruct r1 as [[[homography rct]|]|e].
    + destruct (record_detection cv2 name homography rct frame detected_objects w1)
        as [[fd|e] w2] eqn:H2;
        pose proof (keeps_self_record_detection _ _ _ _ _ _ _ _ H2) as Hs2.
      * exact (Hrest _ _ _ Hs2 H).
      * inversion H; subst. now apply (Hstop w').
    + exact (Hrest _ _ _ eq_refl H).
    + inversion H; subst. now apply (Hstop w').
Qed.

(** C10.  One call of [from_image] on a detector whose feature store has
    one entry per class (it is a [dict]) leaves the counter of every class
    as it was or one above, whatever the outcome of the call and whether or
    not the incrementing candidate was then rejected for its size; and so
    does every single call of [_detect_object], with the counter of its own
    class. *)
Theorem one_increment_per_class_per_frame frame w r w' :
  NoDup (map fst (object_features (self w))) ->
  from_image cv2 np frame w = (r, w') ->
  (forall k,
      object_counters (self w') !! k = object_counters (self w) !! k
      \/ (exists c, object_counters (self w) !! k = Some c
                    /\ object_counters (self w') !! k = Some (c + 1)
                    /\ k ∈ map fst (object_features (self w))))
  /\ (forall name feats scene coords w0 r0 w0',
         _detect_object cv2 np name feats scene coords w0 = (r0, w0') ->
         self w0' = self w0
         \/ (exists c, object_counters (self w0) !! name = Some c
                       /\ self w0' = self (bumped name c w0))).
Proof.
  intros Hnd H. split.
  - intros k. unfold from_image, bind, get_self, put_self in H.
    destruct (extract cv2 np frame _) as [[scene|e] w1] eqn:He;
      pose proof (keeps_self_extract _ _ _ _ He) as Hs; cbn [self] in Hs.
    + cbn beta iota in H. rewrite Hs in H. cbn [object_features set_current_frame] in H.
      apply from_image_loop_counters with (k := k) in H; [|assumption].
      rewrite Hs in H. exact H.
    + inversion H; subst. rewrite Hs. now left.
  - intros name feats scene coords w0 r0 w0' H0.
    apply detect_object_self in H0. destruct H0 as [[Hs _]|Hb]; [now left|now right].
Qed.

End Counters.

(** ** The loader (lines 72-98) *)

Lemma for_each_ok_Forall2 {A B} (f : A -> M B) (P : A -> B -> Prop) :
  (forall a w b w', f a w = (Ok b, w') -> P a b) ->
  forall l w bs w', for_each f l w = (Ok bs, w') -> Forall2 P l bs.
Proof.
  intros Hf. induction l as [|a l IH]; intros w bs w' H.
  - inversion H; subst. constructor.
  - simpl in H. unfold bind in H.
    destruct (f a w) as [[b|e] w1] eqn:H1; [|discriminate].
    destruct (for_each f l w1) as [[bs1|e] w2] eqn:H2; [|discriminate].
    inversion H; subst. constructor; eauto.
Qed.

Section Loader.
Context (cv2 : OpenCV) (np : Numpy) (os : FileSystem).

Lemma extract_calls img w r w' :
  extract cv2 np img w = (r, w') ->
  w' = w \/ w' = logged w [CallDetectAndCompute img].
Proof.
  unfold extract, bind, self_detector, get_self, bind. intros H.
  destruct (detector (self w)) as [det|]; simpl in H; [|inversion H; now left].
  right. destruct (detectAndCompute cv2 det img) as [kps descs].
  destruct (_ && _)%bool; [|now inversion H].
  destruct descs; now inversion H.
Qed.

Lemma extract_total img w det :
  detector (self w) = Some det ->
  (forall kps, detectAndCompute cv2 det img = (kps, None) -> kps = []) ->
  exists kd, extract cv2 np img w = (Ok kd, logged w [CallDetectAndCompute img]).
Proof.
  intros Hdet Hdescs.
  unfold extract, bind, self_detector, get_self, bind. rewrite Hdet. simpl.
  destruct (detectAndCompute cv2 det img) as [kps descs] eqn:Hdc.
  destruct descs as [descs|].
  - destruct (_ && _)%bool; eexists; reflexivity.
  - rewrite (Hdescs kps eq_refl). rewrite andb_false_r. eexists; reflexivity.
Qed.

Lemma load_image_ok_inv img_file w fs w' :
  load_image cv2 np img_file w = (Ok fs, w') ->
  exists img,
    imread cv2 img_file = Some img
    /\ fst (fst fs) = stored cv2 img
    /\ filter (fun c => is_resize c = true) (new_calls w w')
       = if 1000 <? fst (fst (shape img)) then [CallResize img 0.3 0.3] else [].
Proof.
  unfold load_image, bind, log, stored. intros H.
  destruct (imread cv2 img_file) as [img|]; [|discriminate].
  exists img. split; [reflexivity|].
  destruct (1000 <? fst (fst (shape img))); simpl in H;
    match type of H with
    | context [extract cv2 np ?i ?w1] =>
        destruct (extract cv2 np i w1) as [[kd|e] w2] eqn:He; [|discriminate];
        apply extract_calls in He
    end;
    inversion H; subst; split; try reflexivity;
    destruct He as [->| ->]; unfold new_calls, logged; simpl;
    rewrite <- ?app_assoc, drop_app_length; reflexivity.
Qed.

(** C8, as the code has it.  Every reference image that [_load_features]
    stores was read from a file of the class directory and is the image
    resized by 0.3 in both directions when its number of rows
    ([img.shape[0]], the height) exceeds 1000, and the image as read
    otherwise; [cv2.resize] is called on it in the first case only; and
    with a detector that returns descriptors whenever it returns keypoints,
    every readable file is so loaded. *)
Theorem downscale_iff_tall object_name :
  (forall w feats w',
      _load_features cv2 np os object_name w = (Ok feats, w') ->
      let dir := database_path (self w) +:+ object_name +:+ "/" in
      exists names,
        listdir os dir = Some names
        /\ Forall2 (fun img_file fs =>
                      exists img, imread cv2 img_file = Some img
                                  /\ fst (fst fs) = stored cv2 img)
             (map (join dir) (filter (fun f => isfile os (join dir f) = true) names))
             feats)
  /\ (forall img_file w fs w',
         load_image cv2 np img_file w = (Ok fs, w') ->
         exists img,
           imread cv2 img_file = Some img
           /\ fst (fst fs) = (if 1000 <? fst (fst (shape img))
                              then resize cv2 img 0.3 0.3 else img)
           /\ filter (fun c => is_resize c = true) (new_calls w w')
              = if 1000 <? fst (fst (shape img)) then [CallResize img 0.3 0.3] else [])
  /\ (forall img_file img w det,
         imread cv2 img_file = Some img ->
         detector (self w) = Some det ->
         (forall i kps, detectAndCompute cv2 det i = (kps, None) -> kps = []) ->
         exists kps descs w',
           load_image cv2 np img_file w = (Ok (stored cv2 img, kps, descs), w')).
Proof.
  split; [|split].
  - intros w feats w' H dir.
    unfold _load_features, bind, get_self in H. fold dir in H.
    destruct (listdir os dir) as [names|]; [|discriminate].
    exists names. split; [reflexivity|].
    eapply for_each_ok_Forall2; [|exact H].
    intros img_file w0 fs w0' Hload.
    destruct (load_image_ok_inv _ _ _ _ Hload) as (img & Hread & Hst & _). eauto.
  - intros img_file w fs w' H. exact (load_image_ok_inv _ _ _ _ H).
  - intros img_file img w det Hread Hdet Hdescs.
    unfold load_image, bind, log. rewrite Hread. unfold stored.
    destruct (1000 <? fst (fst (shape img))); simpl;
      match goal with
      | |- context [extract cv2 np ?i ?w1] =>
          destruct (extract_total i w1 det Hdet (Hdescs i)) as [[kps descs] ->]
      end; eauto.
Qed.

(** ** Construction (lines 16-60) *)

Lemma basename_slash_free (d : string) : slash_free d = true -> basename d = d.
Proof.
  unfold basename. intros H.
  assert (Hr : forall p i last, slash_free p = true -> rfind_slash p i last = last).
  { induction p as [|c p IH]; intros i last Hp; [reflexivity|].
    simpl in *. apply andb_prop in Hp as [Hc Hp].
    destruct (Ascii.eqb c "/"); [discriminate|]. now apply IH. }
  now rewrite Hr.
Qed.

Lemma map_basename_slash_free (l : list string) :
  Forall (fun d => slash_free d = true) l -> map basename l = l.
Proof.
  induction 1 as [|d l Hd _ IH]; [reflexivity|].
  simpl. now rewrite basename_slash_free, IH.
Qed.

Lemma init_counters_lookup (objs : list string) :
  forall (m : gmap string Z) k,
    fold_left (fun m ob => <[ob := 0]> m) objs m !! k
    = if bool_decide (k ∈ objs) then Some 0 else m !! k.
Proof.
  induction objs as [|o objs IH]; intros m k.
  - cbn [fold_left]. rewrite bool_decide_eq_false_2; [reflexivity|]. apply not_elem_of_nil.
  - cbn [fold_left]. rewrite IH. destruct (decide (k ∈ objs)) as [Hin|Hnin].
    + rewrite (bool_decide_eq_true_2 _ Hin).
      rewrite bool_decide_eq_true_2; [reflexivity|]. apply elem_of_cons; now right.
    + rewrite (bool_decide_eq_false_2 _ Hnin). destruct (decide (k = o)) as [->|Hne].
      * rewrite lookup_insert_eq, bool_decide_eq_true_2; [reflexivity|].
        apply elem_of_cons; now left.
      * rewrite lookup_insert_ne by congruence.
        rewrite bool_decide_eq_false_2; [reflexivity|].
        intros [?|?]%elem_of_cons; contradiction.
Qed.

Lemma dict_set_keys {V} (k : string) (v : V) (d : list (string * V)) :
  forall k', k' ∈ map fst (dict_set k v d) <-> k' = k \/ k' ∈ map fst d.
Proof.
  induction d as [|[k0 v0] d IH]; intros k'; simpl.
  - rewrite elem_of_cons, elem_of_nil. tauto.
  - destruct (String.eqb_spec k0 k) as [->|Hne]; simpl.
    + rewrite !elem_of_cons. tauto.
    + rewrite !elem_of_cons, IH. tauto.
Qed.

Lemma dict_set_NoDup {V} (k : string) (v : V) (d : list (string * V)) :
  NoDup (map fst d) -> NoDup (map fst (dict_set k v d)).
Proof.
  induction d as [|[k0 v0] d IH]; simpl; intros Hnd.
  - constructor; [apply not_elem_of_nil|constructor].
  - inversion Hnd as [|? ? Hnotin Hnd']; subst.
    destruct (String.eqb_spec k0 k) as [->|Hne]; simpl.
    + now constructor.
    + constructor; [|now apply IH].
      rewrite dict_set_keys. intros [?|?]; [congruence|contradiction].
Qed.

Lemma keeps_self_load_features object_name :
  keeps_self (_load_features cv2 np os object_name).
Proof.
  unfold _load_features. keeps.
  apply keeps_self_for_each. intros f. apply keeps_self_load_image.
Qed.

(** What a successful second loop of [__init__] did. *)
Lemma load_objects_ok (objs : list string) :
  forall w w',
    load_objects cv2 np os objs w = (Ok tt, w') ->
    objects (self w') = objects (self w)
    /\ object_counters (self w') = object_counters (self w)
    /\ database_path (self w') = database_path (self w)
    /\ reference_configuration (self w) = reference_configuration (self w')
    /\ Forall (fun o => is_Some (listdir os (database_path (self w) +:+ o +:+ "/"))) objs
    /\ (forall k, k ∈ map fst (object_features (self w'))
                  <-> k ∈ objs \/ k ∈ map fst (object_features (self w)))
    /\ (NoDup (map fst (object_features (self w)))
        -> NoDup (map fst (object_features (self w')))).
Proof.
  induction objs as [|o objs IH]; intros w w' H.
  - inversion H; subst. repeat split; auto.
    intros [Hk|Hk]; [now apply elem_of_nil in Hk|assumption].
  - simpl in H. unfold bind in H.
    destruct (_load_features cv2 np os o w) as [[features|e] w1] eqn:H1; [|discriminate].
    pose proof (keeps_self_load_features _ _ _ _ H1) as Hs1.
    assert (Hdir : is_Some (listdir os (database_path (self w) +:+ o +:+ "/"))).
    { unfold _load_features, bind, get_self in H1.
      destruct (listdir os _); [eauto|discriminate]. }
    unfold get_self, put_self in H.
    apply IH in H. cbn [self set_object_features objects object_counters
                          database_path object_features] in H.
    rewrite Hs1 in H.
    destruct H as (Ho & Hc & Hp & Hcfg & Hall & Hkeys & Hnd).
    repeat split; auto.
    + intros Hk. apply Hkeys in Hk. rewrite dict_set_keys in Hk.
      rewrite elem_of_cons. tauto.
    + intros Hk. apply Hkeys. rewrite dict_set_keys.
      rewrite elem_of_cons in Hk. tauto.
    + intros Hnd0. apply Hnd. now apply dict_set_NoDup.
Qed.

Lemma take_continuation_length (n : nat) (s : string) :
  (String.length (take_continuation n s) <= n)%nat.
Proof.
  revert s. induction n as [|n IH]; intros [|c s]; simpl; try lia.
  destruct (is_continuation c); simpl; [|lia]. specialize (IH s). lia.
Qed.

Lemma first_char_length (s ch : string) :
  first_char s = Some ch -> (1 <= String.length ch <= 4)%nat.
Proof.
  destruct s as [|c s]; simpl; intros H; inversion H; subst; clear H. simpl.
  pose proof (take_continuation_length (sequence_length c - 1) s) as Hlen.
  assert (sequence_length c <= 4)%nat
    by (unfold sequence_length; repeat destruct (_ <? _)%N; lia).
  lia.
Qed.

Lemma record_detection_ok_inv obj_features homography rct frame detected_objects w fd w' :
  record_detection cv2 obj_features homography rct frame detected_objects w = (Ok fd, w') ->
  exists ch boxes,
    first_char obj_features = Some ch
    /\ snd fd = <[ch := boxes]> detected_objects.
Proof.
  unfold record_detection. destruct rct as [[[x y] bw] bh].
  unfold bind, indexed. intros H.
  destruct (first_char obj_features) as [ch|]; [|discriminate].
  simpl in H. unfold getitem in H.
  destruct (homography !! 0%nat); [|discriminate]. simpl in H.
  destruct (homography !! 1%nat); [|discriminate]. simpl in H.
  destruct (object_counters (self w) !! ch); [|discriminate].
  simpl in H. inversion H; subst. simpl. eauto.
Qed.

(** The keys of a detections map are first characters of class names. *)
Lemma from_image_loop_keys :
  forall items frame scene_kp scene_des detected_objects w f dets w',
    from_image_loop cv2 np items frame scene_kp scene_des detected_objects w
    = (Ok (f, dets), w') ->
    forall k, is_Some (dets !! k) ->
              is_Some (detected_objects !! k)
              \/ exists name, name ∈ map fst items /\ first_char name = Some k.
Proof.
  induction items as [|[name feats] items IH];
    intros frame scene_kp scene_des detected_objects w f dets w' H k Hk.
  - inversion H; subst. now left.
  - cbn [from_image_loop] in H. unfold bind in H.
    destruct (_detect_object cv2 np name feats (frame, scene_kp, scene_des) None w)
      as [[[[homography rct]|]|e] w1]; [| |discriminate].
    + destruct (record_detection cv2 name homography rct frame detected_objects w1)
        as [[fd|e] w2] eqn:H2; [|discriminate].
      destruct (record_detection_ok_inv _ _ _ _ _ _ _ _ H2) as (ch & boxes & Hch & Hfd).
      destruct (IH _ _ _ _ _ _ _ _ H k Hk) as [Hin|(n & Hn & Hf)].
      * rewrite Hfd in Hin. destruct (decide (ch = k)) as [->|Hne].
        -- right. exists name. split; [|assumption]. cbn [map fst]. apply elem_of_cons. now left.
        -- rewrite lookup_insert_ne in Hin by assumption. now left.
      * right. exists n. split; [|assumption]. cbn [map fst]. apply elem_of_cons. now right.
    + destruct (IH _ _ _ _ _ _ _ _ H k Hk) as [Hin|(n & Hn & Hf)]; [now left|].
      right. exists n. split; [|assumption]. cbn [map fst]. apply elem_of_cons. now right.
Qed.

(** C9.  When [__init__] returns, from a root whose listing holds plain
    names, the object classes are the entries of the root other than
    [IGNORE], in the order of the listing, and each of them is a directory
    that could be listed; the counters and the feature store have exactly
    these keys; and [IGNORE] is no key of the counters, then or after any
    later frame, nor of any detections map. *)
Theorem object_classes_exclude_IGNORE root detector_type matcher_type
    entries w w' :
  listdir os root = Some entries ->
  Forall (fun d => slash_free d = true) entries ->
  __init__ cv2 np os root detector_type matcher_type w = (Ok tt, w') ->
  objects (self w') = filter (fun d => d ≠ "IGNORE") entries
  /\ (forall d, d ∈ objects (self w')
                <-> (d ∈ entries /\ d ≠ "IGNORE"
                     /\ is_Some (listdir os (root +:+ d +:+ "/"))))
  /\ (forall k, is_Some (object_counters (self w') !! k) <-> k ∈ objects (self w'))
  /\ (forall k, k ∈ map fst (object_features (self w')) <-> k ∈ objects (self w'))
  /\ NoDup (map fst (object_features (self w')))
  /\ reference_configuration (self w')
  /\ ("IGNORE" ∉ objects (self w'))
  /\ object_counters (self w') !! "IGNORE" = None
  /\ (forall w1, object_counters (self w1) !! "IGNORE" = None ->
        forall frame r w2,
          from_image cv2 np frame w1 = (r, w2) ->
          object_counters (self w2) !! "IGNORE" = None
          /\ forall f dets, r = Ok (f, dets) -> dets !! "IGNORE" = None).
Proof.
  intros Hls Hplain H.
  unfold __init__ in H. rewrite Hls in H.
  assert (Hobjs : map basename (filter (fun d => d ≠ "IGNORE") entries)
                  = filter (fun d => d ≠ "IGNORE") entries).
  { apply map_basename_slash_free. rewrite Forall_forall in *.
    intros d Hd. apply Hplain. now apply list_elem_of_filter in Hd as [_ Hd]. }
  rewrite Hobjs in H. unfold bind, put_self in H.
  apply load_objects_ok in H.
  cbn [self objects object_counters database_path object_features] in H.
  destruct H as (Ho & Hc & Hp & Hcfg & Hall & Hkeys & Hnd).
  assert (Hig : "IGNORE" ∉ objects (self w')).
  { rewrite Ho. intros Hin. now apply list_elem_of_filter in Hin as [Hne _]. }
  assert (Hcnt : forall k, is_Some (object_counters (self w') !! k) <-> k ∈ objects (self w')).
  { intros k. rewrite Hc, Ho, init_counters_lookup.
    destruct (decide (k ∈ filter (fun d => d ≠ "IGNORE") entries)) as [Hin|Hnin].
    - rewrite bool_decide_eq_true_2 by assumption. split; eauto.
    - rewrite bool_decide_eq_false_2 by assumption. rewrite lookup_empty.
      split; [intros [? ?]; discriminate|contradiction]. }
  split; [exact Ho|]. split; [|split; [exact Hcnt|split; [|split; [|split; [|split; [exact Hig|split]]]]]].
  - intros d. rewrite Ho, list_elem_of_filter. rewrite Forall_forall in Hall. split.
    + intros [Hne Hin]. repeat split; auto.
      apply Hall. now apply list_elem_of_filter.
    + tauto.
  - intros k. rewrite Hkeys, Ho. cbn [map]. split; [intros [?|Hk]|]; auto.
    now apply elem_of_nil in Hk.
  - apply Hnd. constructor.
  - rewrite <- Hcfg. unfold reference_configuration. cbn. repeat split; reflexivity.
  - destruct (object_counters (self w') !! "IGNORE") eqn:E; [|reflexivity].
    exfalso. apply Hig, Hcnt. eauto.
  - intros w1 Hnone frame r w2 Hrun. split.
    + unfold from_image, bind, get_self, put_self in Hrun.
      destruct (extract cv2 np frame _) as [[scene|e] w3] eqn:He;
        pose proof (keeps_self_extract _ _ _ _ _ _ He) as Hs; cbn [self] in Hs.
      * cbn beta iota in Hrun. rewrite Hs in Hrun.
        cbn [object_features set_current_frame] in Hrun.
        assert (Hgen : forall items fr dets wa ra wb,
                   from_image_loop cv2 np items fr (fst scene) (snd scene) dets wa = (ra, wb) ->
                   object_counters (self wa) !! "IGNORE" = None ->
                   object_counters (self wb) !! "IGNORE" = None).
        { induction items as [|[name feats] items IH]; intros fr dets wa ra wb Hl Ha.
          - now inversion Hl; subst.
          - cbn [from_image_loop] in Hl. unfold bind in Hl.
            destruct (_detect_object cv2 np name feats (fr, fst scene, snd scene) None wa)
              as [r1 wa1] eqn:H1.
            assert (Ha1 : object_counters (self wa1) !! "IGNORE" = None).
            { apply detect_object_self in H1.
              destruct H1 as [[Hs1 _]|(c & Hc1 & Hs1)]; rewrite Hs1; [assumption|].
              rewrite bumped_counters. destruct (decide (name = "IGNORE")) as [->|Hne].
              - congruence.
              - now rewrite lookup_insert_ne. }
            destruct r1 as [[[homography rct]|]|e0].
            + destruct (record_detection cv2 name homography rct fr dets wa1)
                as [[fd|e1] wa2] eqn:H2;
                pose proof (keeps_self_record_detection _ _ _ _ _ _ _ _ _ H2) as Hs2.
              * apply (IH _ _ _ _ _ Hl). now rewrite Hs2.
              * inversion Hl; subst. now rewrite Hs2.
            + now apply (IH _ _ _ _ _ Hl).
            + now inversion Hl; subst. }
        apply (Hgen _ _ _ _ _ _ Hrun). now rewrite Hs.
      * inversion Hrun; subst. now rewrite Hs.
    + intros f dets ->.
      unfold from_image, bind, get_self, put_self in Hrun.
      destruct (extract cv2 np frame _) as [[scene|e] w3]; [|discriminate].
      cbn beta iota in Hrun.
      destruct (dets !! "IGNORE") eqn:E; [|reflexivity]. exfalso.
      destruct (from_image_loop_keys _ _ _ _ _ _ _ _ _ Hrun "IGNORE") as [Hin|(n & _ & Hf)].
      * eauto.
      * rewrite lookup_empty in Hin. now destruct Hin.
      * apply first_char_length in Hf. simpl in Hf. lia.
Qed.

End Loader.

(** ** The methods run on the concrete collaborators *)

Module Runs.
Import Scenario.

Ltac run := vm_compute; reflexivity.
Ltac runs := repeat match goal with |- _ /\ _ => split end; run.
Ltac nonempty := let H := fresh in intros H; vm_compute in H; discriminate H.

(** C1.  On the database [db/] of the one class [mug], whose reference
    image is the scene itself, [_detect_object] localises the object over
    the whole image, and [from_image] then files it under [obj_features[0]],
    the first character ["m"] of the class name, and raises [KeyError] on
    [self.object_counters["m"]]: no detections map is returned.  On [db2/],
    which also has a class [m], the call returns, and the box of [mug] sits
    under the key ["m"] next to the box of [m]; ["mug"] is no key. *)
Theorem from_image_keys_by_first_character :
  let w := loaded cv2_same "db/" in
  let w2 := loaded cv2_same "db2/" in
  object_features (self w) = [("mug", [reference])]
  /\ fst (_detect_object cv2_same np "mug" [reference] reference None w)
     = Ok (Some ([(0, 0); (0, 99); (99, 99); (99, 0)], (0, 0, 99, 99)))
  /\ fst (from_image cv2_same np image100 w) = Raise (KeyError "m")
  /\ object_features (self w2) = [("mug", [reference]); ("m", [reference])]
  /\ match fst (from_image cv2_same np image100 w2) with
     | Ok (_, detected_objects) =>
         detected_objects = {[ "m" := [(0, 0, 99, 99); (0, 0, 99, 99)] ]}
         /\ detected_objects !! "mug" = None
     | Raise _ => False
     end.
Proof.
  cbv zeta. split; [run|]. split; [run|]. split; [run|]. split; [run|].
  vm_compute. split; reflexivity.
Qed.

Lemma empty_descriptors_no_match_witness :
  candidate cv2_same np "mug" reference (blank_frame, [], None) None (loaded cv2_same "db/")
  = (Ok Continue, loaded cv2_same "db/").
Proof.
  refine (proj1 (empty_descriptors_no_match cv2_same np "mug" image100 kps100
                   (Some des100) blank_frame [] None None (loaded cv2_same "db/") _)).
  right. right. left. reflexivity.
Defined.

Lemma threshold_and_size_rejection_witness :
  _detect_object cv2_far np "mug" [reference; reference] reference None (loaded cv2_far "db/")
  = _detect_object cv2_far np "mug" [reference] reference None
      (logged (loaded cv2_far "db/") [CallKnnMatch des100 des100])
  /\ fst (_detect_object cv2_tiny np "mug" [reference; reference] reference None
            (loaded cv2_tiny "db/"))
     = Ok None.
Proof.
  split.
  - pose proof (threshold_and_size_rejection cv2_far np "mug" image100 kps100 des100
                  image100 kps100 des100 None (loaded cv2_far "db/") BFMatcher [reference])
      as T.
    cbv zeta in T. apply T.
    + unfold reference_configuration. runs.
    + run.
    + nonempty.
    + nonempty.
    + vm_compute. discriminate.
  - pose proof (threshold_and_size_rejection cv2_tiny np "mug" image100 kps100 des100
                  image100 kps100 des100 None (loaded cv2_tiny "db/") BFMatcher [reference])
      as T.
    cbv zeta in T.
    assert (Hcfg : reference_configuration (self (loaded cv2_tiny "db/")))
      by (unfold reference_configuration; runs).
    assert (Hm : matcher (self (loaded cv2_tiny "db/")) = Some BFMatcher) by run.
    assert (Hd : des100 ≠ []) by nonempty.
    destruct (T Hcfg Hm Hd Hd) as (_ & _ & Tc).
    assert (Hgt : 200 < len (good_matches (knnMatch cv2_tiny BFMatcher des100 des100)))
      by run.
    assert (Hloc : localize cv2_tiny np "mug" image100 kps100 kps100
                     (good_matches (knnMatch cv2_tiny BFMatcher des100 des100)) None
                     (logged (loaded cv2_tiny "db/") [CallKnnMatch des100 des100])
                   = (Ok ([(0, 0); (0, 4); (4, 4); (4, 0)], (0, 0, 4, 4)),
                      snd (localize cv2_tiny np "mug" image100 kps100 kps100 good100 None
                             (logged (loaded cv2_tiny "db/") [CallKnnMatch des100 des100]))))
      by run.
    destruct (Tc Hgt _ _ _ _ _ _ Hloc) as (_ & Hdet & _); [left; lia|].
    exact (f_equal fst Hdet).
Defined.

(** C3, as the claim has it, fails on [db/] when the fit of the homography
    fails on 250 good matches: [_detect_object] and [from_image] end in the
    exception of the projection, not in [(None, None)] and an empty map. *)
Lemma failed_homography_is_not_NotFound :
  let w := loaded cv2_nofit "db/" in
  200 < len (good_matches (knnMatch cv2_nofit BFMatcher des100 des100))
  /\ findHomography cv2_nofit pts100 pts100 = None
  /\ fst (_detect_object cv2_nofit np "mug" [reference] reference None w)
     = Raise (CvError "perspectiveTransform")
  /\ fst (_detect_object cv2_nofit np "mug" [reference] reference None w) ≠ Ok None
  /\ fst (from_image cv2_nofit np image100 w) = Raise (CvError "perspectiveTransform").
Proof.
  cbv zeta. split; [run|]. split; [run|]. split; [run|]. split; [|run].
  vm_compute. discriminate.
Qed.

Lemma failed_homography_raises_witness :
  fst (_detect_object cv2_nofit np "mug" [reference; reference] reference None
         (loaded cv2_nofit "db/"))
  = Raise (CvError "perspectiveTransform").
Proof.
  pose proof (failed_homography_raises cv2_nofit np "mug" image100 kps100 des100
                image100 kps100 des100 None (loaded cv2_nofit "db/") BFMatcher 0
                pts100 pts100 [reference]) as T.
  cbv zeta in T.
  exact (f_equal fst
           (proj1 (T ltac:(run) ltac:(nonempty) ltac:(nonempty) ltac:(run) ltac:(run)
                     ltac:(run) ltac:(run) ltac:(run)))).
Defined.

(** C2, as the claim has it, fails on [db/] when the fit shrinks the
    template to a box of 4 by 4: no localisation is returned, and the
    counter of [mug] has gone from 0 to 1. *)
Lemma size_rejected_candidate_is_counted :
  let w := loaded cv2_tiny "db/" in
  let run := _detect_object cv2_tiny np "mug" [reference] reference None w in
  fst run = Ok None
  /\ object_counters (self w) !! "mug" = Some 0
  /\ object_counters (self (snd run)) !! "mug" = Some 1.
Proof.
  cbv zeta. runs.
Qed.

Lemma counter_once_per_detected_object_witness :
  object_counters
    (self (snd (for_each (fun scene => _detect_object cv2_same np "mug" [reference] scene None)
                  [reference; reference] (loaded cv2_same "db/")))) !! "mug"
  = Some (0 + len [reference; reference]).
Proof.
  refine (proj2 (counter_once_per_detected_object cv2_same np "mug" [reference] None)
            [reference; reference] (loaded cv2_same "db/")
            (let v := ([(0, 0); (0, 99); (99, 99); (99, 0)], (0, 0, 99, 99)) in
             [Some v; Some v])
            _ 0 _ _ _).
  - run.
  - run.
  - repeat constructor; eexists; reflexivity.
Defined.

Lemma one_increment_per_class_per_frame_witness :
  let w := loaded cv2_tiny "db/" in
  let w' := snd (from_image cv2_tiny np image100 w) in
  object_counters (self w') !! "mug" = object_counters (self w) !! "mug"
  \/ (exists c,
         object_counters (self w) !! "mug" = Some c
         /\ object_counters (self w') !! "mug" = Some (c + 1)
         /\ "mug" ∈ map fst (object_features (self w))).
Proof.
  refine (proj1 (one_increment_per_class_per_frame cv2_tiny np image100
                   (loaded cv2_tiny "db/")
                   (fst (from_image cv2_tiny np image100 (loaded cv2_tiny "db/")))
                   (snd (from_image cv2_tiny np image100 (loaded cv2_tiny "db/"))) _ _)
            "mug").
  - vm_compute. apply NoDup_singleton.
  - now destruct (from_image cv2_tiny np image100 (loaded cv2_tiny "db/")).
Defined.

(** C8, as the claim has it, fails on an image of 500 rows and 2000
    columns: its largest dimension exceeds 1000, and the loader stores it
    as read, with no call to [cv2.resize]; the image of 1200 rows next to it
    in the class directory is stored resized. *)
Lemma wide_image_not_downscaled :
  let w := loaded cv2_same "db/" in
  let run := load_image cv2_same np "db3/wide/w.png" w in
  imread cv2_same "db3/wide/w.png" = Some wide
  /\ 1000 < Z.max (fst (fst (shape wide))) (snd (fst (shape wide)))
  /\ match fst run with
     | Ok (img, _, _) => img = wide
     | Raise _ => False
     end
  /\ filter (fun c => is_resize c = true) (new_calls w (snd run)) = []
  /\ (map (fun fs => shape (fst (fst fs))) <$>
        (snd <$> head (object_features (self (loaded cv2_same "db3/")))))
     = Some [(500, 2000, 3); (360, 240, 3)].
Proof.
  cbv zeta. split; [run|]. split; [run|]. split; [run|]. split; run.
Qed.

Lemma downscale_iff_tall_witness :
  exists img,
    imread cv2_same "db3/wide/t.png" = Some img
    /\ fst (fst tall_features)
       = (if 1000 <? fst (fst (shape img)) then resize cv2_same img 0.3 0.3 else img)
    /\ filter (fun c => is_resize c = true) (new_calls (loaded cv2_same "db/") (snd tall_run))
       = if 1000 <? fst (fst (shape img)) then [CallResize img 0.3 0.3] else [].
Proof.
  refine (proj1 (proj2 (downscale_iff_tall cv2_same np fs "wide"))
            "db3/wide/t.png" (loaded cv2_same "db/") tall_features (snd tall_run) _).
  run.
Defined.

Lemma object_classes_exclude_IGNORE_witness :
  objects (self (loaded cv2_same "db/")) = filter (fun d => d ≠ "IGNORE") ["mug"; "IGNORE"]
  /\ ("IGNORE" ∉ objects (self (loaded cv2_same "db/")))
  /\ object_counters (self (loaded cv2_same "db/")) !! "IGNORE" = None.
Proof.
  pose proof (object_classes_exclude_IGNORE cv2_same np fs "db/" "SIFT" "BF"
                ["mug"; "IGNORE"] start (loaded cv2_same "db/")
                ltac:(run) ltac:(repeat constructor) ltac:(run)) as T.
  destruct T as (T1 & _ & _ & _ & _ & _ & T7 & T8 & _). auto.
Defined.

End Runs.

(** * Further properties of the methods *)

(** ** The rectangle of a projected template (lines 183-192) *)

Lemma int32_small (z : Z) : - 2 ^ 31 <= z < 2 ^ 31 -> int32 z = z.
Proof. unfold int32. intros H. rewrite Z.mod_small; lia. Qed.

(** X1.  [_extract_rectangle] fails exactly on fewer than four points and
    reads the first four only.  When the coordinates of these four are
    within [-2^30, 2^30), the rectangle [(x, y, w, h)] it returns has
    [w >= 0] and [h >= 0], encloses all four points, and is the smallest
    such: each of its four sides passes through one of the points. *)
Theorem extract_rectangle_encloses (dst : polygon) :
  (_extract_rectangle dst = None <-> (length dst < 4)%nat)
  /\ _extract_rectangle dst = _extract_rectangle (take 4 dst)
  /\ (forall x y bw bh,
         _extract_rectangle dst = Some (x, y, bw, bh) ->
         Forall (fun p => in_range (fst p) /\ in_range (snd p)) (take 4 dst) ->
         0 <= bw /\ 0 <= bh
         /\ Forall (fun p => x <= fst p <= x + bw /\ y <= snd p <= y + bh) (take 4 dst)
         /\ x ∈ map fst (take 4 dst) /\ x + bw ∈ map fst (take 4 dst)
         /\ y ∈ map snd (take 4 dst) /\ y + bh ∈ map snd (take 4 dst)).
Proof.
  split; [|split].
  - destruct dst as [|p0 [|p1 [|p2 [|p3 dst]]]]; simpl; split; intros H;
      try reflexivity; try lia; discriminate.
  - destruct dst as [|p0 [|p1 [|p2 [|p3 dst]]]]; reflexivity.
  - intros x y bw bh Hr Hin.
    destruct dst as [|[x0 y0] [|[x1 y1] [|[x2 y2] [|[x3 y3] dst]]]]; try discriminate.
    cbn [take] in *. cbn [_extract_rectangle fold_left fst snd] in Hr.
    inversion Hr as [[Hx Hy Hw Hh]]; clear Hr.
    inversion Hin as [|? ? [Hx0 Hy0] Hin1]; subst; clear Hin.
    inversion Hin1 as [|? ? [Hx1 Hy1] Hin2]; subst; clear Hin1.
    inversion Hin2 as [|? ? [Hx2 Hy2] Hin3]; subst; clear Hin2.
    inversion Hin3 as [|? ? [Hx3 Hy3] _]; subst; clear Hin3.
    cbn [fst snd] in *. unfold in_range, int32_sub in *.
    rewrite !int32_small by lia.
    split; [lia|]. split; [lia|]. split.
    { repeat constructor; cbn [fst snd]; lia. }
    cbn [map fst snd]. rewrite !elem_of_cons.
    repeat split; lia.
Qed.

Lemma extract_rectangle_encloses_witness :
  0 <= 30 /\ 0 <= 45
  /\ Forall (fun p => 5 <= fst p <= 5 + 30 /\ (- 5) <= snd p <= - 5 + 45)
       (take 4 [(10, 0); (5, 40); (35, 38); (30, - 5)])
  /\ 5 ∈ map fst (take 4 [(10, 0); (5, 40); (35, 38); (30, - 5)])
  /\ 5 + 30 ∈ map fst (take 4 [(10, 0); (5, 40); (35, 38); (30, - 5)])
  /\ - 5 ∈ map snd (take 4 [(10, 0); (5, 40); (35, 38); (30, - 5)])
  /\ - 5 + 45 ∈ map snd (take 4 [(10, 0); (5, 40); (35, 38); (30, - 5)]).
Proof.
  apply (proj2 (proj2 (extract_rectangle_encloses
                         [(10, 0); (5, 40); (35, 38); (30, - 5)]))).
  - reflexivity.
  - unfold in_range. repeat constructor; simpl; lia.
Defined.

(** ** What a frame changes in the detector (lines 148-181) *)

Lemma counters_only_refl d : counters_only d d.
Proof. split; [now destruct d|tauto]. Qed.

Lemma counters_only_trans d1 d2 d3 :
  counters_only d1 d2 -> counters_only d2 d3 -> counters_only d1 d3.
Proof.
  intros [H12 K12] [H23 K23]. split.
  - rewrite <- H23 at 2. rewrite <- H12. reflexivity.
  - intros k. rewrite K23. apply K12.
Qed.

Lemma counters_only_bumped name c w :
  object_counters (self w) !! name = Some c ->
  counters_only (self w) (self (bumped name c w)).
Proof.
  intros Hc. split; [reflexivity|].
  intros k. unfold bumped. cbn [self object_counters set_object_counters].
  destruct (decide (name = k)) as [<-|Hne].
  - rewrite lookup_insert_eq, Hc. split; eauto.
  - now rewrite lookup_insert_ne.
Qed.

Section Frame.
Context (cv2 : OpenCV) (np : Numpy).

Lemma detect_object_counters_only name feats scene coords w r w' :
  _detect_object cv2 np name feats scene coords w = (r, w') ->
  counters_only (self w) (self w').
Proof.
  intros H. apply detect_object_self in H.
  destruct H as [[-> _]|(c & Hc & ->)].
  - apply counters_only_refl.
  - now apply counters_only_bumped.
Qed.

Lemma from_image_loop_counters_only :
  forall items frame scene_kp scene_des detected_objects w r w',
    from_image_loop cv2 np items frame scene_kp scene_des detected_objects w = (r, w') ->
    counters_only (self w) (self w').
Proof.
  induction items as [|[name feats] items IH];
    intros frame scene_kp scene_des detected_objects w r w' H.
  - inversion H; subst. apply counters_only_refl.
  - cbn [from_image_loop] in H. unfold bind in H.
    destruct (_detect_object cv2 np name feats (frame, scene_kp, scene_des) None w)
      as [r1 w1] eqn:H1.
    apply detect_object_counters_only in H1.
    destruct r1 as [[[homography rct]|]|e].
    + destruct (record_detection cv2 name homography rct frame detected_objects w1)
        as [[fd|e] w2] eqn:H2;
        pose proof (keeps_self_record_detection _ _ _ _ _ _ _ _ _ H2) as Hs2.
      * apply IH in H. rewrite Hs2 in H. exact (counters_only_trans _ _ _ H1 H).
      * inversion H; subst. now rewrite Hs2.
    + apply IH in H. exact (counters_only_trans _ _ _ H1 H).
    + now inversion H; subst.
Qed.

(** X2.  Whatever its outcome, a call of [from_image] adds one to
    [current_frame] and changes nothing else of the detector but detection
    counters: thresholds, detector, matcher, class list and feature store
    are as before, and the counters count the same classes. *)
Theorem from_image_advances_frame frame w :
  let d := self w in
  let d' := self (snd (from_image cv2 np frame w)) in
  current_frame d' = current_frame d + 1
  /\ d' = set_object_counters (object_counters d')
            (set_current_frame (current_frame d + 1) d)
  /\ (forall k, is_Some (object_counters d' !! k) <-> is_Some (object_counters d !! k)).
Proof.
  cbv zeta.
  assert (H : counters_only (set_current_frame (current_frame (self w) + 1) (self w))
                (self (snd (from_image cv2 np frame w)))).
  { unfold from_image, bind, get_self, put_self.
    destruct (extract cv2 np frame _) as [[scene|e] w1] eqn:He;
      pose proof (keeps_self_extract _ _ _ _ _ _ He) as Hs; cbn [self] in Hs.
    - cbn beta iota.
      destruct (from_image_loop cv2 np _ frame (fst scene) (snd scene) ∅ w1)
        as [r w'] eqn:Hl.
      apply from_image_loop_counters_only in Hl. rewrite Hs in Hl. exact Hl.
    - cbn [snd]. rewrite Hs. apply counters_only_refl. }
  destruct H as [Heq Hdom]. split; [|split].
  - rewrite <- Heq. reflexivity.
  - symmetry. exact Heq.
  - exact Hdom.
Qed.

Lemma detect_object_no_scene name feats scene_img scene_kp scene_des coords w :
  scene_des = None \/ scene_des = Some [] ->
  _detect_object cv2 np name feats (scene_img, scene_kp, scene_des) coords w = (Ok None, w).
Proof.
  intros Hs. induction feats as [|[[img k] ds] rest IH]; [reflexivity|].
  rewrite detect_object_cons, candidate_skip; [exact IH|tauto].
Qed.

Lemma from_image_loop_no_scene items frame scene_kp scene_des detected_objects w :
  scene_des = None \/ scene_des = Some [] ->
  from_image_loop cv2 np items frame scene_kp scene_des detected_objects w
  = (Ok (frame, detected_objects), w).
Proof.
  intros Hs. induction items as [|[name feats] items IH]; [reflexivity|].
  cbn [from_image_loop]. unfold bind. now rewrite detect_object_no_scene.
Qed.

Lemma extract_run img w det kps descs :
  detector (self w) = Some det ->
  detectAndCompute cv2 det img = (kps, descs) ->
  extract cv2 np img w
  = (if (String.eqb (detector_type (self w)) "RootSIFT" && (0 <? len kps))%bool
     then _rootsift np kps descs
     else ret (kps, descs)) (logged w [CallDetectAndCompute img]).
Proof.
  intros Hdet Hdc. unfold extract, bind, self_detector, get_self, bind.
  rewrite Hdet. simpl. rewrite Hdc. reflexivity.
Qed.

(** X3.  On a frame in which the feature detector finds nothing (no
    keypoints and [None] for the descriptors, or an empty descriptor
    matrix), [from_image] returns the frame as it was given and an empty
    detections map; it has advanced the frame counter and made the one call
    to [detectAndCompute], with no call to the matcher, no overlay drawn
    and no counter touched. *)
Theorem featureless_frame_reports_nothing frame w det kps descs :
  detector (self w) = Some det ->
  detectAndCompute cv2 det frame = (kps, descs) ->
  (kps = [] /\ descs = None) \/ descs = Some [] ->
  from_image cv2 np frame w
  = (Ok (frame, ∅),
     mkWorld (set_current_frame (current_frame (self w) + 1) (self w))
             (calls w ++ [CallDetectAndCompute frame])).
Proof.
  intros Hdet Hdc Hnone.
  unfold from_image, bind, get_self, put_self.
  rewrite (extract_run frame
             (mkWorld (set_current_frame (current_frame (self w) + 1) (self w)) (calls w))
             det kps descs Hdet Hdc).
  destruct Hnone as [[-> ->]| ->].
  - rewrite andb_false_r. unfold ret, logged. cbn [fst snd self calls].
    now rewrite from_image_loop_no_scene by tauto.
  - destruct (_ && _)%bool; unfold _rootsift, ret, logged;
      cbn [l1_normalize map fst snd self calls];
      now rewrite from_image_loop_no_scene by tauto.
Qed.

End Frame.

(** ** What [_detect_object] returns (lines 100-146) *)

Lemma good_matches_length (ms : list (list DMatch)) :
  (length (good_matches ms) <= length ms)%nat.
Proof.
  induction ms as [|match_ ms IH]; [reflexivity|].
  destruct match_ as [|m [|n [|o match_]]]; simpl; try lia.
  destruct (ratio_test m n); simpl; lia.
Qed.

Lemma count_calls_app (p : call -> bool) (a b : list call) :
  count_calls p (a ++ b) = (count_calls p a + count_calls p b)%nat.
Proof. unfold count_calls. now rewrite filter_app, length_app. Qed.

Lemma counters_only_thresholds d d' :
  counters_only d d' ->
  min_object_width d' = min_object_width d
  /\ min_object_height d' = min_object_height d
  /\ min_object_area d' = min_object_area d
  /\ object_features d' = object_features d.
Proof. intros [<- _]. repeat split. Qed.

Section Detect.
Context (cv2 : OpenCV) (np : Numpy).

Lemma candidate_no_matcher name obj_img kp (d : descriptors) scene_img scene_kp
    (sd : descriptors) coords w :
  matcher (self w) = None -> d ≠ [] -> sd ≠ [] ->
  candidate cv2 np name (obj_img, kp, Some d) (scene_img, scene_kp, Some sd) coords w
  = (Raise (AttributeError "matcher"), w).
Proof.
  intros Hm Hd Hsd. unfold candidate.
  apply len_pos in Hd, Hsd. rewrite Hd, Hsd. simpl.
  unfold bind, self_matcher, get_self, bind. now rewrite Hm.
Qed.

(** What a candidate that returns did. *)
Lemma candidate_return_inv name obj_img kp des scene_img scene_kp scene_des coords w v w' :
  candidate cv2 np name (obj_img, kp, des) (scene_img, scene_kp, scene_des) coords w
  = (Ok (Return v), w') ->
  exists (d sd : descriptors) mt,
    des = Some d /\ scene_des = Some sd /\ matcher (self w) = Some mt
    /\ min_points (self w) < len (good_matches (knnMatch cv2 mt d sd))
    /\ localize cv2 np name obj_img kp scene_kp (good_matches (knnMatch cv2 mt d sd))
         coords (logged w [CallKnnMatch d sd]) = (Ok v, w')
    /\ too_small (self w') (snd v) = false.
Proof.
  intros H.
  destruct des as [d|]; [|rewrite candidate_skip in H by tauto; discriminate].
  destruct scene_des as [sd|]; [|rewrite candidate_skip in H by tauto; discriminate].
  destruct d as [|row d]; [rewrite candidate_skip in H by tauto; discriminate|].
  destruct sd as [|srow sd]; [rewrite candidate_skip in H by tauto; discriminate|].
  destruct (matcher (self w)) as [mt|] eqn:Hm.
  - rewrite (candidate_run cv2 np _ _ _ _ _ _ _ _ _ mt Hm) in H by discriminate.
    destruct (Z.ltb_spec (min_points (self w))
                (len (good_matches (knnMatch cv2 mt (row :: d) (srow :: sd)))))
      as [Hlt|]; [|discriminate].
    unfold detected, bind in H.
    destruct (localize cv2 np name obj_img kp scene_kp _ coords _) as [[r|e] w1] eqn:Hl;
      [|discriminate].
    unfold get_self in H.
    destruct (too_small (self w1) (snd r)) eqn:Hts; inversion H; subst.
    exists (row :: d), (srow :: sd), mt. repeat split; auto.
  - rewrite candidate_no_matcher in H by (assumption || discriminate). discriminate.
Qed.

Lemma detect_object_some_inv name feats scene_img scene_kp scene_des coords :
  forall w dst x y bw bh w',
    _detect_object cv2 np name feats (scene_img, scene_kp, scene_des) coords w
    = (Ok (Some (dst, (x, y, bw, bh))), w') ->
    min_object_width (self w) <= bw /\ min_object_height (self w) <= bh
    /\ min_object_area (self w) <= int32_mul bw bh
    /\ _extract_rectangle dst = Some (x, y, bw, bh)
    /\ exists obj_img kp (d sd : descriptors) mt H,
         (obj_img, kp, Some d) ∈ feats /\ scene_des = Some sd
         /\ matcher (self w) = Some mt
         /\ min_points (self w) < len (good_matches (knnMatch cv2 mt d sd))
         /\ dst = project cv2 np (template obj_img coords) H.
Proof.
  induction feats as [|[[obj_img kp] des] feats IH]; intros w dst x y bw bh w' H.
  - discriminate.
  - rewrite detect_object_cons in H.
    destruct (candidate cv2 np name (obj_img, kp, des) (scene_img, scene_kp, scene_des)
                coords w) as [[[| |v]|e] w1] eqn:Hc; try discriminate.
    + apply candidate_self in Hc.
      destruct Hc as [[Hs _]|(c & _ & _ & Hr)]; [|congruence].
      apply IH in H. rewrite Hs in H.
      destruct H as (Hw & Hh & Ha & Hr & oi & k & d & sd & mt & Hm & Hin & Hrest).
      repeat split; auto. exists oi, k, d, sd, mt, Hm.
      split; [apply elem_of_cons; now right|exact Hrest].
    + inversion H; subst.
      destruct (candidate_return_inv _ _ _ _ _ _ _ _ _ _ _ Hc)
        as (d & sd & mt & -> & -> & Hm & Hgt & Hl & Hts).
      destruct (localize_ok_inv _ _ _ _ _ _ _ _ _ _ _ _ Hl)
        as (c & src & dstp & Hm' & _ & _ & _ & _ & Hdst & Hrect & ->).
      cbn [snd] in Hts. unfold too_small in Hts.
      cbn [self logged bumped set_object_counters min_object_width min_object_height
             min_object_area] in Hts.
      apply orb_false_elim in Hts as [Hts Ha]. apply orb_false_elim in Hts as [Hw Hh].
      apply Z.ltb_ge in Hw, Hh, Ha.
      repeat split; auto. exists obj_img, kp, d, sd, mt, Hm'.
      split; [apply elem_of_cons; now left|]. repeat split; auto.
Qed.

(** X5.  Every localisation that [_detect_object] returns passed the size
    test: its rectangle [(x, y, w, h)] has [w >= min_object_width],
    [h >= min_object_height] and [w * h >= min_object_area] (the product
    taken in [int32]); the rectangle is the one [_extract_rectangle] gives
    for the returned polygon, and the polygon is the template of one of the
    reference images of the class, projected by a fitted homography, that
    image having had more than [min_points] good matches. *)
Theorem returned_rectangle_meets_thresholds name feats scene_img scene_kp scene_des
    coords w dst x y bw bh w' :
  _detect_object cv2 np name feats (scene_img, scene_kp, scene_des) coords w
  = (Ok (Some (dst, (x, y, bw, bh))), w') ->
  (min_object_width (self w) <= bw /\ min_object_height (self w) <= bh
   /\ min_object_area (self w) <= int32_mul bw bh)
  /\ _extract_rectangle dst = Some (x, y, bw, bh)
  /\ exists obj_img kp (d sd : descriptors) mt H,
       (obj_img, kp, Some d) ∈ feats /\ scene_des = Some sd
       /\ matcher (self w) = Some mt
       /\ min_points (self w) < len (good_matches (knnMatch cv2 mt d sd))
       /\ dst = project cv2 np (template obj_img coords) H.
Proof.
  intros H. apply detect_object_some_inv in H. tauto.
Qed.

(** X6.  With a matcher that answers with at most one entry per reference
    descriptor, as [knnMatch] does, a class whose reference images all have
    at most [min_points] descriptors is never detected: [_detect_object]
    returns [(None, None)], having called nothing but the matcher, and the
    detector is as it was, counters included. *)
Theorem short_reference_never_detected name coords mt feats :
  forall scene w,
    matcher (self w) = Some mt ->
    (forall d sd : descriptors, (length (knnMatch cv2 mt d sd) <= length d)%nat) ->
    Forall (fun f => forall d : descriptors,
                       snd f = Some d -> len d <= min_points (self w)) feats ->
    exists cs,
      _detect_object cv2 np name feats scene coords w = (Ok None, logged w cs)
      /\ Forall (fun c => is_knn_match c = true) cs.
Proof.
  induction feats as [|[[obj_img kp] des] feats IH];
    intros [[scene_img scene_kp] scene_des] w Hm Hknn Hshort.
  - exists []. split; [|constructor]. unfold logged. rewrite app_nil_r. now destruct w.
  - inversion Hshort as [|? ? Hf Hrest]; subst. rewrite detect_object_cons.
    assert (Hskip : forall w0, self w0 = self w ->
              forall cs0, w0 = logged w cs0 -> Forall (fun c => is_knn_match c = true) cs0 ->
              exists cs,
                _detect_object cv2 np name feats (scene_img, scene_kp, scene_des) coords w0
                = (Ok None, logged w cs)
                /\ Forall (fun c => is_knn_match c = true) cs).
    { intros w0 Hs cs0 -> Hcs0.
      destruct (IH (scene_img, scene_kp, scene_des) (logged w cs0)) as (cs & Hrun & Hcs);
        try assumption.
      exists (cs0 ++ cs). rewrite Hrun, logged_logged. split; [reflexivity|].
      now apply Forall_app. }
    assert (Hnil : w = logged w []).
    { unfold logged. rewrite app_nil_r. now destruct w. }
    destruct des as [d|];
      [|rewrite candidate_skip by tauto; now apply (Hskip w eq_refl [])].
    destruct scene_des as [sd|];
      [|rewrite candidate_skip by tauto; now apply (Hskip w eq_refl [])].
    destruct d as [|row d];
      [rewrite candidate_skip by tauto; now apply (Hskip w eq_refl [])|].
    destruct sd as [|srow sd];
      [rewrite candidate_skip by tauto; now apply (Hskip w eq_refl [])|].
    rewrite (candidate_run cv2 np _ _ _ _ _ _ _ _ _ mt Hm) by discriminate.
    assert (Hle : len (good_matches (knnMatch cv2 mt (row :: d) (srow :: sd)))
                  <= min_points (self w)).
    { specialize (Hf (row :: d) eq_refl).
      pose proof (good_matches_length (knnMatch cv2 mt (row :: d) (srow :: sd))).
      pose proof (Hknn (row :: d) (srow :: sd)). unfold len in *. lia. }
    apply Z.ltb_ge in Hle. rewrite Hle.
    apply (Hskip (logged w [CallKnnMatch (row :: d) (srow :: sd)]) eq_refl
             [CallKnnMatch (row :: d) (srow :: sd)] eq_refl).
    now repeat constructor.
Qed.

(** X7.  [_detect_object] called with a class name that has no counter
    raises [KeyError] on the first reference image whose good matches pass
    the threshold, after the call to the matcher and before any homography
    is fitted. *)
Theorem uncounted_class_raises_KeyError name obj_img kp (d : descriptors) scene_img
    scene_kp (sd : descriptors) coords w mt rest :
  matcher (self w) = Some mt -> d ≠ [] -> sd ≠ [] ->
  min_points (self w) < len (good_matches (knnMatch cv2 mt d sd)) ->
  object_counters (self w) !! name = None ->
  _detect_object cv2 np name ((obj_img, kp, Some d) :: rest)
    (scene_img, scene_kp, Some sd) coords w
  = (Raise (KeyError name), logged w [CallKnnMatch d sd]).
Proof.
  intros Hm Hd Hsd Hgt Hc.
  rewrite detect_object_cons, (candidate_run _ _ _ _ _ _ _ _ _ _ _ mt Hm Hd Hsd).
  apply Z.ltb_lt in Hgt. rewrite Hgt.
  unfold detected, bind, localize, bind, increment_counter, get_self, bind.
  cbn [self logged]. now rewrite Hc.
Qed.

(** X8.  A detector whose [matcher] attribute was never assigned raises
    [AttributeError] on the first reference image that has descriptors,
    when the scene has some; it has called nothing and changed nothing. *)
Theorem detect_object_without_matcher name obj_img kp (d : descriptors) scene_img
    scene_kp (sd : descriptors) coords w rest :
  matcher (self w) = None -> d ≠ [] -> sd ≠ [] ->
  _detect_object cv2 np name ((obj_img, kp, Some d) :: rest)
    (scene_img, scene_kp, Some sd) coords w
  = (Raise (AttributeError "matcher"), w).
Proof.
  intros Hm Hd Hsd. now rewrite detect_object_cons, candidate_no_matcher.
Qed.

End Detect.

(** ** The detections map and the calls of a frame (lines 148-181) *)

Ltac tally :=
  first [ exists []; split; [now rewrite app_nil_r|]
        | eexists; split;
          [cbn [calls self logged bumped]; rewrite <- ?app_assoc; reflexivity|] ];
  repeat split; vm_compute; lia.

Lemma take_continuation_idem (n : nat) (s : string) :
  take_continuation n (take_continuation n s) = take_continuation n s.
Proof.
  revert s. induction n as [|n IH]; intros [|c s]; simpl; try reflexivity.
  destruct (is_continuation c) eqn:Hc; simpl; [|reflexivity].
  now rewrite Hc, IH.
Qed.

(** [s[0][0]] is [s[0]]: the first character is one character. *)
Lemma first_char_idem (s k : string) : first_char s = Some k -> first_char k = Some k.
Proof.
  destruct s as [|c s]; simpl; intros H; inversion H; subst; clear H.
  simpl. now rewrite take_continuation_idem.
Qed.

(** On a name in ASCII the first character is the first byte; on one that
    starts with a letter of two bytes, it is the two bytes. *)
Lemma first_char_code_point :
  first_char "mug" = Some "m" /\ first_char "éclair" = Some "é"
  /\ first_char "€uro" = Some "€" /\ first_char "" = None.
Proof. repeat split. Qed.

Section Report.
Context (cv2 : OpenCV) (np : Numpy).

Lemma record_detection_ok_box name homography x y bw bh frame dets w fd w' :
  record_detection cv2 name homography (x, y, bw, bh) frame dets w = (Ok fd, w') ->
  exists ch,
    first_char name = Some ch
    /\ is_Some (object_counters (self w) !! ch)
    /\ snd fd = <[ch := default [] (dets !! ch)
                        ++ [(y, x, int32_add y bh, int32_add x bw)]]> dets.
Proof.
  unfold record_detection, bind, indexed. intros H.
  destruct (first_char name) as [ch|]; [|discriminate].
  simpl in H. unfold getitem in H.
  destruct (homography !! 0%nat); [|discriminate]. simpl in H.
  destruct (homography !! 1%nat); [|discriminate]. simpl in H.
  destruct (object_counters (self w) !! ch) eqn:Hc; [|discriminate].
  simpl in H. inversion H; subst. exists ch. simpl. eauto.
Qed.

Lemma from_image_loop_filed (d0 : KeypointObjectDetector) :
  forall items frame scene_kp scene_des dets0 w f dets w',
    counters_only d0 (self w) ->
    (forall n, n ∈ map fst items -> n ∈ map fst (object_features d0)) ->
    from_image_loop cv2 np items frame scene_kp scene_des dets0 w = (Ok (f, dets), w') ->
    (forall k boxes, dets0 !! k = Some boxes -> filed d0 k boxes) ->
    forall k boxes, dets !! k = Some boxes -> filed d0 k boxes.
Proof.
  induction items as [|[name feats] items IH];
    intros frame scene_kp scene_des dets0 w f dets w' Hd0 Hkeys H Hinv.
  - inversion H; subst. exact Hinv.
  - cbn [from_image_loop] in H. unfold bind in H.
    destruct (_detect_object cv2 np name feats (frame, scene_kp, scene_des) None w)
      as [[[[homography [[[x y] bw] bh]]|]|e] w1] eqn:H1; [| |discriminate].
    + destruct (record_detection cv2 name homography (x, y, bw, bh) frame dets0 w1)
        as [[fd|e] w2] eqn:H2; [|discriminate].
      pose proof (keeps_self_record_detection _ _ _ _ _ _ _ _ _ H2) as Hs2.
      pose proof (detect_object_counters_only _ _ _ _ _ _ _ _ _ H1) as Hw1.
      pose proof (counters_only_trans _ _ _ Hd0 Hw1) as Hd1.
      destruct (record_detection_ok_box _ _ _ _ _ _ _ _ _ _ _ H2) as (ch & Hch & Hcnt & Hfd).
      destruct (detect_object_some_inv _ _ _ _ _ _ _ _ _ _ _ _ _ _ _ H1)
        as (Hbw & Hbh & Hba & _).
      destruct (counters_only_thresholds _ _ Hd0) as (Ew & Eh & Ea & _).
      rewrite Ew in Hbw. rewrite Eh in Hbh. rewrite Ea in Hba.
      refine (IH _ _ _ _ _ _ _ _ _ _ H _).
      * now rewrite Hs2.
      * intros n Hn. apply Hkeys. cbn [map fst]. apply elem_of_cons. now right.
      * intros k boxes Hk. rewrite Hfd in Hk.
        destruct (decide (ch = k)) as [<-|Hne].
        -- rewrite lookup_insert_eq in Hk. inversion Hk; subst; clear Hk.
           split; [now destruct (default [] (dets0 !! ch))|].
           split; [exact (first_char_idem _ _ Hch)|].
           split; [now apply (proj2 Hd1)|].
           split.
           { exists name. split; [|exact Hch]. apply Hkeys. cbn [map fst].
             apply elem_of_cons. now left. }
           apply Forall_app. split.
           { destruct (dets0 !! ch) as [old|] eqn:Hold; [|constructor].
             exact (proj2 (proj2 (proj2 (proj2 (Hinv _ _ Hold))))). }
           repeat constructor. exists bw, bh. repeat split; assumption.
        -- rewrite lookup_insert_ne in Hk by assumption. now apply Hinv.
    + pose proof (detect_object_counters_only _ _ _ _ _ _ _ _ _ H1) as Hw1.
      refine (IH _ _ _ _ _ _ _ _ _ _ H _).
      * exact (counters_only_trans _ _ _ Hd0 Hw1).
      * intros n Hn. apply Hkeys. cbn [map fst]. apply elem_of_cons. now right.
      * exact Hinv.
Qed.

(** X9.  Every entry of the detections map that [from_image] returns is
    filed under a key of one character (one code point: [k[0]] is [k]),
    the first character of the name of a class of the feature store, and
    that character has a counter of its own
    (the call raises [KeyError] otherwise); its list of boxes is not empty,
    and every box [(ymin, xmin, ymax, xmax)] in it is [(y, x, y + h, x + w)]
    for a rectangle that passed the size test of the detector. *)
Theorem detections_filed_under_first_characters frame w f dets w' :
  from_image cv2 np frame w = (Ok (f, dets), w') ->
  forall k boxes, dets !! k = Some boxes -> filed (self w) k boxes.
Proof.
  intros H k boxes Hk.
  unfold from_image, bind, get_self, put_self in H.
  destruct (extract cv2 np frame _) as [[scene|e] w1] eqn:He; [|discriminate].
  pose proof (keeps_self_extract _ _ _ _ _ _ He) as Hs. cbn [self] in Hs.
  cbn beta iota in H.
  refine (from_image_loop_filed
            (set_current_frame (current_frame (self w) + 1) (self w))
            _ _ _ _ _ _ _ _ _ _ _ H _ k boxes Hk).
  - rewrite Hs. apply counters_only_refl.
  - rewrite Hs. intros n Hn. exact Hn.
  - intros k0 boxes0 Hk0. rewrite lookup_empty in Hk0. discriminate.
Qed.

(** *** The calls to OpenCV *)

Lemma localize_calls name obj_img kp scene_kp good coords w r w' :
  localize cv2 np name obj_img kp scene_kp good coords w = (r, w') ->
  exists cs,
    calls w' = calls w ++ cs
    /\ count_calls is_knn_match cs = 0%nat
    /\ (count_calls is_find_homography cs <= 1)%nat
    /\ count_calls is_detect_and_compute cs = 0%nat.
Proof.
  intros H. unfold localize, bind, increment_counter, get_self, bind, put_self, log,
    indexed, ret, raise in H.
  destruct (object_counters (self w) !! name); cbn beta iota in H;
    [|inversion H; subst; tally].
  destruct (keypoint_pts kp _); cbn beta iota in H; [|inversion H; subst; tally].
  destruct (keypoint_pts scene_kp _); cbn beta iota in H; [|inversion H; subst; tally].
  cbn [self calls] in H.
  destruct (findHomography cv2 _ _); [|inversion H; subst; tally].
  destruct (_extract_rectangle _); inversion H; subst; tally.
Qed.

Lemma candidate_calls name f scene coords w r w' :
  candidate cv2 np name f scene coords w = (r, w') ->
  exists cs,
    calls w' = calls w ++ cs
    /\ (count_calls is_knn_match cs <= 1)%nat
    /\ (count_calls is_find_homography cs
        <= match r with Ok Continue => 0 | _ => 1 end)%nat
    /\ count_calls is_detect_and_compute cs = 0%nat.
Proof.
  intros H.
  destruct f as [[obj_img kp] des], scene as [[scene_img scene_kp] scene_des].
  destruct des as [d|];
    [|rewrite candidate_skip in H by tauto; inversion H; subst; tally].
  destruct scene_des as [sd|];
    [|rewrite candidate_skip in H by tauto; inversion H; subst; tally].
  destruct d as [|row d];
    [rewrite candidate_skip in H by tauto; inversion H; subst; tally|].
  destruct sd as [|srow sd];
    [rewrite candidate_skip in H by tauto; inversion H; subst; tally|].
  destruct (matcher (self w)) as [mt|] eqn:Hm.
  - rewrite (candidate_run cv2 np _ _ _ _ _ _ _ _ _ mt Hm) in H by discriminate.
    destruct (min_points (self w) <? _); [|inversion H; subst; tally].
    unfold detected, bind in H.
    destruct (localize cv2 np name obj_img kp scene_kp _ coords _) as [lr w1] eqn:Hl.
    apply localize_calls in Hl. destruct Hl as (cs & Hcs & Hk & Hf & Hd).
    cbn [calls logged] in Hcs.
    assert (Hw' : calls w' = calls w1).
    { destruct lr as [v|e]; [|now inversion H].
      unfold get_self in H. destruct (too_small _ _); now inversion H. }
    assert (Hr : r ≠ Ok Continue).
    { destruct lr as [v|e]; [|inversion H; discriminate].
      unfold get_self in H. destruct (too_small _ _); inversion H; discriminate. }
    exists ([CallKnnMatch (row :: d) (srow :: sd)] ++ cs).
    rewrite Hw', Hcs, app_assoc, !count_calls_app. split; [reflexivity|].
    replace (count_calls is_knn_match [CallKnnMatch (row :: d) (srow :: sd)])
      with 1%nat by reflexivity.
    replace (count_calls is_find_homography [CallKnnMatch (row :: d) (srow :: sd)])
      with 0%nat by reflexivity.
    replace (count_calls is_detect_and_compute [CallKnnMatch (row :: d) (srow :: sd)])
      with 0%nat by reflexivity.
    repeat split; try lia.
    destruct r as [[| |v]|e]; [congruence|lia ..].
  - rewrite candidate_no_matcher in H by (assumption || discriminate).
    inversion H; subst; tally.
Qed.

Lemma detect_object_calls name feats scene coords :
  forall w r w',
    _detect_object cv2 np name feats scene coords w = (r, w') ->
    exists cs,
      calls w' = calls w ++ cs
      /\ (count_calls is_knn_match cs <= length feats)%nat
      /\ (count_calls is_find_homography cs <= 1)%nat
      /\ count_calls is_detect_and_compute cs = 0%nat.
Proof.
  induction feats as [|f feats IH]; intros w r w' H.
  - inversion H; subst. tally.
  - rewrite detect_object_cons in H.
    destruct (candidate cv2 np name f scene coords w) as [r1 w1] eqn:Hc.
    apply candidate_calls in Hc. destruct Hc as (cs1 & Hcs1 & Hk1 & Hf1 & Hd1).
    destruct r1 as [[| |v]|e].
    + apply IH in H. destruct H as (cs2 & Hcs2 & Hk2 & Hf2 & Hd2).
      exists (cs1 ++ cs2). rewrite Hcs2, Hcs1, app_assoc, !count_calls_app.
      cbn [length]. repeat split; lia.
    + inversion H; subst. exists cs1. cbn [length]. repeat split; auto; lia.
    + inversion H; subst. exists cs1. cbn [length]. repeat split; auto; lia.
    + inversion H; subst. exists cs1. cbn [length]. repeat split; auto; lia.
Qed.

Lemma record_detection_calls name homography rct frame dets w r w' :
  record_detection cv2 name homography rct frame dets w = (r, w') ->
  exists cs,
    calls w' = calls w ++ cs
    /\ count_calls is_knn_match cs = 0%nat
    /\ count_calls is_find_homography cs = 0%nat
    /\ count_calls is_detect_and_compute cs = 0%nat.
Proof.
  unfold record_detection. destruct rct as [[[x y] bw] bh].
  unfold bind, indexed, getitem, get_self, log, ret, raise. intros H.
  destruct (first_char name); cbn beta iota in H; [|inversion H; subst; tally].
  destruct (homography !! 0%nat); cbn beta iota in H; [|inversion H; subst; tally].
  destruct (homography !! 1%nat); cbn beta iota in H; [|inversion H; subst; tally].
  cbn [self calls] in H.
  destruct (object_counters (self w) !! _); inversion H; subst; tally.
Qed.

Lemma from_image_loop_calls :
  forall items frame scene_kp scene_des dets w r w',
    from_image_loop cv2 np items frame scene_kp scene_des dets w = (r, w') ->
    exists cs,
      calls w' = calls w ++ cs
      /\ (count_calls is_knn_match cs <= length (concat (map snd items)))%nat
      /\ (count_calls is_find_homography cs <= length items)%nat
      /\ count_calls is_detect_and_compute cs = 0%nat.
Proof.
  induction items as [|[name feats] items IH]; intros frame scene_kp scene_des dets w r w' H.
  - inversion H; subst. tally.
  - cbn [from_image_loop] in H. unfold bind in H.
    cbn [map snd concat length]. rewrite length_app.
    destruct (_detect_object cv2 np name feats (frame, scene_kp, scene_des) None w)
      as [r1 w1] eqn:H1.
    apply detect_object_calls in H1. destruct H1 as (cs1 & Hcs1 & Hk1 & Hf1 & Hd1).
    destruct r1 as [[[homography rct]|]|e].
    + destruct (record_detection cv2 name homography rct frame dets w1)
        as [[fd|e] w2] eqn:H2;
        apply record_detection_calls in H2; destruct H2 as (cs2 & Hcs2 & Hk2 & Hf2 & Hd2).
      * apply IH in H. destruct H as (cs3 & Hcs3 & Hk3 & Hf3 & Hd3).
        exists (cs1 ++ cs2 ++ cs3).
        rewrite Hcs3, Hcs2, Hcs1, <- !app_assoc, !count_calls_app.
        repeat split; lia.
      * inversion H; subst. exists (cs1 ++ cs2).
        rewrite Hcs2, Hcs1, <- !app_assoc, !count_calls_app.
        repeat split; lia.
    + apply IH in H. destruct H as (cs3 & Hcs3 & Hk3 & Hf3 & Hd3).
      exists (cs1 ++ cs3). rewrite Hcs3, Hcs1, <- !app_assoc, !count_calls_app.
      repeat split; lia.
    + inversion H; subst. exists cs1. repeat split; auto; lia.
Qed.

(** X10.  Whatever its outcome, a call of [from_image] only adds to the
    calls made to OpenCV: at most one [detectAndCompute], at most one
    [knnMatch] per stored reference image, and at most one [findHomography]
    per class; and a single [_detect_object] fits at most one homography and
    matches each of its reference images at most once. *)
Theorem calls_of_a_frame_are_bounded frame w :
  (exists cs,
      calls (snd (from_image cv2 np frame w)) = calls w ++ cs
      /\ (count_calls is_detect_and_compute cs <= 1)%nat
      /\ (count_calls is_knn_match cs
          <= length (concat (map snd (object_features (self w)))))%nat
      /\ (count_calls is_find_homography cs <= length (object_features (self w)))%nat)
  /\ (forall name feats scene coords,
         exists cs,
           calls (snd (_detect_object cv2 np name feats scene coords w)) = calls w ++ cs
           /\ (count_calls is_knn_match cs <= length feats)%nat
           /\ (count_calls is_find_homography cs <= 1)%nat).
Proof.
  split.
  - unfold from_image, bind, get_self, put_self.
    destruct (extract cv2 np frame _) as [[scene|e] w1] eqn:He;
      pose proof (keeps_self_extract _ _ _ _ _ _ He) as Hs; cbn [self] in Hs;
      apply extract_calls in He; cbn [calls logged] in He.
    + cbn beta iota. rewrite Hs. cbn [object_features set_current_frame].
      destruct (from_image_loop cv2 np _ frame (fst scene) (snd scene) ∅ w1)
        as [r w'] eqn:Hl.
      apply from_image_loop_calls in Hl. destruct Hl as (cs & Hcs & Hk & Hf & Hd).
      cbn [snd]. destruct He as [->| ->]; cbn [calls logged] in Hcs.
      * exists cs. repeat split; auto; lia.
      * exists ([CallDetectAndCompute frame] ++ cs).
        rewrite Hcs, <- app_assoc, !count_calls_app.
        replace (count_calls is_detect_and_compute [CallDetectAndCompute frame])
          with 1%nat by reflexivity.
        replace (count_calls is_knn_match [CallDetectAndCompute frame])
          with 0%nat by reflexivity.
        replace (count_calls is_find_homography [CallDetectAndCompute frame])
          with 0%nat by reflexivity.
        repeat split; lia.
    + cbn [snd]. destruct He as [->| ->]; cbn [calls logged].
      * exists []. rewrite app_nil_r. repeat split; vm_compute; lia.
      * exists [CallDetectAndCompute frame]. split; [reflexivity|].
        replace (count_calls is_detect_and_compute [CallDetectAndCompute frame])
          with 1%nat by reflexivity.
        replace (count_calls is_knn_match [CallDetectAndCompute frame])
          with 0%nat by reflexivity.
        replace (count_calls is_find_homography [CallDetectAndCompute frame])
          with 0%nat by reflexivity.
        repeat split; lia.
  - intros name feats scene coords.
    destruct (_detect_object cv2 np name feats scene coords w) as [r w'] eqn:H.
    apply detect_object_calls in H. destruct H as (cs & Hcs & Hk & Hf & _).
    exists cs. auto.
Qed.

End Report.

(** ** Feature extraction (lines 62-70, 91-94, 152-155) *)

Section Extraction.
Context (cv2 : OpenCV) (np : Numpy).

(** X12.  Descriptors are normalised for the detector type [RootSIFT]
    only, and only when there are keypoints: with any other type, or on an
    image without keypoints, [extract] hands on what [detectAndCompute]
    returned; with [RootSIFT] and keypoints it hands on the same keypoints
    and, entry by entry, numpy's square root of the [float32] quotient of
    the entry by the sum of its row plus [eps], and raises [AttributeError]
    (of [descs.sum]) if the descriptors are [None]. *)
Theorem normalisation_only_for_RootSIFT img w det kps descs :
  detector (self w) = Some det ->
  detectAndCompute cv2 det img = (kps, descs) ->
  let w' := logged w [CallDetectAndCompute img] in
  (detector_type (self w) ≠ "RootSIFT" \/ kps = [] ->
   extract cv2 np img w = (Ok (kps, descs), w'))
  /\ (detector_type (self w) = "RootSIFT" -> kps ≠ [] ->
      extract cv2 np img w
      = match descs with
        | Some ds =>
            (Ok (kps,
                 Some (map (fun row =>
                              map (fun x =>
                                     np_sqrt np
                                       (f32_div x (f32_add (np_sum np row)
                                                     (to_float32 eps))))
                                  row)
                         ds)), w')
        | None => (Raise (AttributeError "sum"), w')
        end).
Proof.
  intros Hdet Hdc w'. rewrite (extract_run cv2 np img w det kps descs Hdet Hdc).
  fold w'. split.
  - intros [Hne| ->].
    + apply String.eqb_neq in Hne. now rewrite Hne.
    + now rewrite andb_false_r.
  - intros Ht Hk. apply String.eqb_eq in Ht. apply len_pos in Hk. rewrite Ht, Hk.
    destruct descs as [ds|]; [|reflexivity].
    unfold _rootsift, ret, l1_normalize. rewrite map_map. do 4 f_equal.
    apply map_ext. intros row. apply map_map.
Qed.

End Extraction.

(** ** The constructor (lines 16-60) *)

Lemma features_only_refl d : features_only d d.
Proof. now destruct d. Qed.

Lemma dict_set_fresh {V} (k : string) (v : V) (d : list (string * V)) :
  k ∉ map fst d -> dict_set k v d = d ++ [(k, v)].
Proof.
  induction d as [|[k0 v0] d IH]; simpl; intros Hk; [reflexivity|].
  rewrite not_elem_of_cons in Hk. destruct Hk as [Hne Hk].
  destruct (String.eqb_spec k0 k) as [->|_]; [congruence|].
  now rewrite IH.
Qed.

Lemma dict_set_Forall {V} (P : string * V -> Prop) (k : string) (v : V)
    (d : list (string * V)) :
  Forall P d -> P (k, v) -> Forall P (dict_set k v d).
Proof.
  intros Hd Hv. induction Hd as [|[k0 v0] d H0 Hd IH]; simpl.
  - now repeat constructor.
  - destruct (String.eqb k0 k); constructor; auto.
Qed.

Lemma for_each_head_ok {A B} (f : A -> M B) (a : A) (l : list A) w bs w' :
  for_each f (a :: l) w = (Ok bs, w') -> exists b w1, f a w = (Ok b, w1).
Proof.
  simpl. unfold bind. destruct (f a w) as [[b|e] w1]; [eauto|discriminate].
Qed.

Section Construction.
Context (cv2 : OpenCV) (np : Numpy) (os : FileSystem).

Lemma from_image_no_detector frame w :
  detector (self w) = None ->
  from_image cv2 np frame w
  = (Raise (AttributeError "detector"),
     mkWorld (set_current_frame (current_frame (self w) + 1) (self w)) (calls w)).
Proof.
  intros Hdet.
  unfold from_image, bind, get_self, put_self, extract, self_detector, bind, get_self.
  cbn [self calls detector set_current_frame]. now rewrite Hdet.
Qed.

Lemma load_image_no_detector img_file w fs w' :
  detector (self w) = None -> load_image cv2 np img_file w ≠ (Ok fs, w').
Proof.
  intros Hdet H. unfold load_image, bind, log in H.
  destruct (imread cv2 img_file) as [img|]; [|discriminate].
  destruct (1000 <? fst (fst (shape img))); simpl in H;
    unfold extract, self_detector, bind, get_self in H; simpl in H;
    rewrite Hdet in H; discriminate.
Qed.

Lemma load_features_no_detector object_name w feats w' :
  detector (self w) = None ->
  _load_features cv2 np os object_name w = (Ok feats, w') -> feats = [].
Proof.
  intros Hdet H. unfold _load_features, bind, get_self in H.
  destruct (listdir os _) as [names|]; [|discriminate].
  destruct (map _ (filter _ names)) as [|file files]; [now inversion H|].
  apply for_each_head_ok in H as (b & w1 & H).
  now apply load_image_no_detector in H.
Qed.

Lemma load_objects_features_only (objs : list string) :
  forall w r w',
    load_objects cv2 np os objs w = (r, w') -> features_only (self w) (self w').
Proof.
  induction objs as [|o objs IH]; intros w r w' H.
  - inversion H; subst. apply features_only_refl.
  - simpl in H. unfold bind in H.
    destruct (_load_features cv2 np os o w) as [[features|e] w1] eqn:H1;
      pose proof (keeps_self_load_features _ _ _ _ _ _ _ H1) as Hs1.
    + unfold get_self, put_self in H. apply IH in H. cbn [self] in H.
      rewrite Hs1 in H. exact H.
    + inversion H; subst. rewrite Hs1. apply features_only_refl.
Qed.

Lemma load_objects_order (objs : list string) :
  forall w w',
    load_objects cv2 np os objs w = (Ok tt, w') ->
    NoDup objs ->
    (forall o, o ∈ objs -> o ∉ map fst (object_features (self w))) ->
    map fst (object_features (self w')) = map fst (object_features (self w)) ++ objs.
Proof.
  induction objs as [|o objs IH]; intros w w' H Hnd Hfresh.
  - inversion H; subst. now rewrite app_nil_r.
  - simpl in H. unfold bind in H.
    destruct (_load_features cv2 np os o w) as [[features|e] w1] eqn:H1; [|discriminate].
    pose proof (keeps_self_load_features _ _ _ _ _ _ _ H1) as Hs1.
    unfold get_self, put_self in H. inversion Hnd as [|? ? Ho Hnd']; subst.
    apply IH in H; [|assumption|].
    + cbn [self object_features set_object_features] in H. rewrite Hs1 in H.
      rewrite H, dict_set_fresh by (apply Hfresh, elem_of_cons; now left).
      rewrite map_app, <- app_assoc. reflexivity.
    + intros o' Ho'. cbn [self object_features set_object_features].
      rewrite Hs1, dict_set_keys. intros [->|Hin]; [contradiction|].
      revert Hin. apply Hfresh, elem_of_cons. now right.
Qed.

Lemma load_objects_no_detector (objs : list string) :
  forall w w',
    detector (self w) = None ->
    load_objects cv2 np os objs w = (Ok tt, w') ->
    Forall (fun kv => snd kv = []) (object_features (self w)) ->
    Forall (fun kv => snd kv = []) (object_features (self w')).
Proof.
  induction objs as [|o objs IH]; intros w w' Hdet H Hall.
  - now inversion H; subst.
  - simpl in H. unfold bind in H.
    destruct (_load_features cv2 np os o w) as [[features|e] w1] eqn:H1; [|discriminate].
    pose proof (keeps_self_load_features _ _ _ _ _ _ _ H1) as Hs1.
    apply load_features_no_detector in H1; [|assumption]. subst features.
    unfold get_self, put_self in H. apply IH in H; [exact H| |].
    + cbn [self detector set_object_features]. now rewrite Hs1.
    + cbn [self object_features set_object_features]. rewrite Hs1.
      now apply dict_set_Forall.
Qed.

Lemma load_objects_each (objs : list string) :
  forall w w',
    load_objects cv2 np os objs w = (Ok tt, w') ->
    forall o, o ∈ objs ->
      exists w1 feats w2,
        database_path (self w1) = database_path (self w)
        /\ _load_features cv2 np os o w1 = (Ok feats, w2).
Proof.
  induction objs as [|o0 objs IH]; intros w w' H o Ho.
  - now apply elem_of_nil in Ho.
  - simpl in H. unfold bind in H.
    destruct (_load_features cv2 np os o0 w) as [[features|e] w1] eqn:H1; [|discriminate].
    pose proof (keeps_self_load_features _ _ _ _ _ _ _ H1) as Hs1.
    apply elem_of_cons in Ho as [->|Ho]; [now exists w, features, w1|].
    unfold get_self, put_self in H.
    destruct (IH _ _ H o Ho) as (wa & feats & wb & Hp & Hrun).
    exists wa, feats, wb. split; [|exact Hrun].
    rewrite Hp. cbn [self database_path set_object_features]. now rewrite Hs1.
Qed.

Lemma load_features_reads_all object_name w feats w' names :
  listdir os (database_path (self w) +:+ object_name +:+ "/") = Some names ->
  _load_features cv2 np os object_name w = (Ok feats, w') ->
  forall f, f ∈ names ->
    isfile os (join (database_path (self w) +:+ object_name +:+ "/") f) = true ->
    is_Some (imread cv2 (join (database_path (self w) +:+ object_name +:+ "/") f)).
Proof.
  intros Hls H f Hf Hreg. unfold _load_features, bind, get_self in H.
  rewrite Hls in H.
  apply (for_each_ok_Forall2 _ (fun file _ => is_Some (imread cv2 file))) in H.
  - assert (Hall : forall (l : list string) (k : list FeatureSet),
               Forall2 (fun file _ => is_Some (imread cv2 file)) l k ->
               Forall (fun file => is_Some (imread cv2 file)) l)
      by (induction 1; constructor; auto).
    apply Hall in H. rewrite Forall_forall in H. apply H.
    apply list_elem_of_fmap. exists f. split; [reflexivity|].
    now apply list_elem_of_filter.
  - intros file w0 fs w0' Hload.
    destruct (load_image_ok_inv _ _ _ _ _ _ Hload) as (img & Hread & _). eauto.
Qed.

(** X13.  When the constructor returns, the frame counter is 0, the
    detector type and the database path are the arguments, the classes are
    the base names of the entries of the database other than [IGNORE], in
    the order of the listing, every class has its counter at 0 and nothing
    else has a counter, the feature store has the classes for keys, in the
    same order when no two classes share a name, and the detector and the
    matcher are the ones the two type strings name. *)
Theorem fresh_detector_state root dtype mtype entries w w' :
  listdir os root = Some entries ->
  __init__ cv2 np os root dtype mtype w = (Ok tt, w') ->
  let d := self w' in
  current_frame d = 0 /\ detector_type d = dtype /\ database_path d = root
  /\ objects d = map basename (filter (fun e => e ≠ "IGNORE") entries)
  /\ (forall k, object_counters d !! k
                = if bool_decide (k ∈ objects d) then Some 0 else None)
  /\ (NoDup (objects d) -> map fst (object_features d) = objects d)
  /\ (dtype = "SIFT" \/ dtype = "RootSIFT" -> detector d = Some SIFT_create)
  /\ (dtype = "SURF" -> detector d = Some SURF_create)
  /\ (mtype = "BF" -> matcher d = Some BFMatcher)
  /\ (mtype = "FLANN" -> matcher d = Some FlannBasedMatcher).
Proof.
  intros Hls H. unfold __init__ in H. rewrite Hls in H.
  unfold bind, put_self in H.
  pose proof (load_objects_features_only _ _ _ _ H) as Hf.
  unfold features_only in Hf. cbn [self] in Hf.
  cbv zeta. rewrite <- Hf.
  cbn [set_object_features current_frame detector_type database_path objects
         object_counters object_features detector matcher].
  split; [reflexivity|]. split; [reflexivity|]. split; [reflexivity|].
  split; [reflexivity|]. split.
  { intros k. rewrite init_counters_lookup. now destruct (bool_decide _). }
  split.
  { intros Hnd. apply load_objects_order in H; [|assumption|].
    - cbn [self object_features] in H. now rewrite H.
    - intros o _. cbn [self object_features map]. apply not_elem_of_nil. }
  split.
  { intros [->| ->]; reflexivity. }
  split; [intros ->; reflexivity|]. split; intros ->; reflexivity.
Qed.

(** X14.  A detector type other than [SIFT], [RootSIFT] and [SURF] leaves
    the [detector] attribute unassigned.  The constructor then returns only
    if no class directory holds a regular file, with an empty list of
    reference images for every class, and every later call of [from_image]
    raises [AttributeError]. *)
Theorem unknown_detector_type_is_unusable root dtype mtype w w' :
  dtype ≠ "SIFT" -> dtype ≠ "RootSIFT" -> dtype ≠ "SURF" ->
  __init__ cv2 np os root dtype mtype w = (Ok tt, w') ->
  detector (self w') = None
  /\ Forall (fun kv => snd kv = []) (object_features (self w'))
  /\ forall frame w1,
       detector (self w1) = None ->
       from_image cv2 np frame w1
       = (Raise (AttributeError "detector"),
          mkWorld (set_current_frame (current_frame (self w1) + 1) (self w1)) (calls w1))
       /\ detector (self (snd (from_image cv2 np frame w1))) = None.
Proof.
  intros H1 H2 H3 H. unfold __init__ in H.
  apply String.eqb_neq in H1, H2, H3. rewrite H1, H2, H3 in H. cbn [orb] in H.
  destruct (listdir os root) as [entries|]; [|discriminate].
  unfold bind, put_self in H.
  pose proof (load_objects_features_only _ _ _ _ H) as Hf.
  unfold features_only in Hf. cbn [self] in Hf.
  split; [now rewrite <- Hf|]. split.
  - refine (load_objects_no_detector _ _ _ _ H _); [reflexivity|constructor].
  - intros frame w1 Hdet. rewrite (from_image_no_detector frame w1 Hdet).
    split; [reflexivity|exact Hdet].
Qed.

(** X4.  A regular file of a class directory that cannot be read as an
    image makes [_load_features] raise (on that file, if on none before
    it), with the detector as it was; and the constructor does not return
    when a class has such a file.  Entries that are no regular files are
    passed over. *)
Theorem unreadable_file_aborts_loading object_name w names f :
  let dir := database_path (self w) +:+ object_name +:+ "/" in
  listdir os dir = Some names ->
  f ∈ names -> isfile os (join dir f) = true -> imread cv2 (join dir f) = None ->
  (exists e w', _load_features cv2 np os object_name w = (Raise e, w')
                /\ self w' = self w)
  /\ (forall entries root dtype mtype w0,
         root = database_path (self w) ->
         listdir os root = Some entries ->
         object_name ∈ map basename (filter (fun e => e ≠ "IGNORE") entries) ->
         exists e, fst (__init__ cv2 np os root dtype mtype w0) = Raise e).
Proof.
  intros dir Hls Hf Hreg Hread. split.
  - destruct (_load_features cv2 np os object_name w) as [[feats|e] w'] eqn:H.
    + pose proof (load_features_reads_all _ _ _ _ _ Hls H f Hf Hreg) as [img Himg].
      fold dir in Himg. congruence.
    + exists e, w'. split; [reflexivity|].
      exact (keeps_self_load_features _ _ _ _ _ _ _ H).
  - intros entries root dtype mtype w0 -> Hroot Hin.
    destruct (__init__ cv2 np os (database_path (self w)) dtype mtype w0)
      as [[[]|e] w0'] eqn:H; [|eauto].
    exfalso. unfold __init__ in H. rewrite Hroot in H.
    unfold bind, put_self in H.
    destruct (load_objects_each _ _ _ H object_name Hin) as (w1 & feats & w2 & Hp & Hrun).
    cbn [self database_path] in Hp.
    assert (Hls1 : listdir os (database_path (self w1) +:+ object_name +:+ "/")
                   = Some names) by (rewrite Hp; exact Hls).
    pose proof (load_features_reads_all _ _ _ _ _ Hls1 Hrun f Hf) as Himg.
    rewrite Hp in Himg. fold dir in Himg. destruct (Himg Hreg) as [img Himg'].
    congruence.
Qed.

End Construction.

(** ** The further properties on the concrete collaborators *)

Module Checks.
Import Scenario Fixtures.

Ltac run := vm_compute; reflexivity.
Ltac nonempty := let H := fresh in intros H; vm_compute in H; discriminate H.

Lemma featureless_frame_reports_nothing_witness :
  from_image cv2_same np blank_frame (loaded cv2_same "db/")
  = (Ok (blank_frame, ∅),
     mkWorld (set_current_frame (current_frame (self (loaded cv2_same "db/")) + 1)
                (self (loaded cv2_same "db/")))
             (calls (loaded cv2_same "db/") ++ [CallDetectAndCompute blank_frame])).
Proof.
  apply (featureless_frame_reports_nothing cv2_same np blank_frame (loaded cv2_same "db/")
           SIFT_create [] None).
  - run.
  - run.
  - left. split; reflexivity.
Defined.

Lemma returned_rectangle_meets_thresholds_witness :
  min_object_width (self (loaded cv2_same "db/")) <= 99
  /\ min_object_height (self (loaded cv2_same "db/")) <= 99
  /\ min_object_area (self (loaded cv2_same "db/")) <= int32_mul 99 99.
Proof.
  refine (proj1 (returned_rectangle_meets_thresholds cv2_same np "mug" [reference]
                   image100 kps100 (Some des100) None (loaded cv2_same "db/")
                   [(0, 0); (0, 99); (99, 99); (99, 0)] 0 0 99 99
                   (snd (_detect_object cv2_same np "mug" [reference] reference None
                           (loaded cv2_same "db/"))) _)).
  run.
Defined.

Lemma short_reference_never_detected_witness :
  exists cs,
    _detect_object cv2_same np "mug" [small_reference; small_reference] reference None
      (loaded cv2_same "db/")
    = (Ok None, logged (loaded cv2_same "db/") cs)
    /\ Forall (fun c => is_knn_match c = true) cs.
Proof.
  apply (short_reference_never_detected cv2_same np "mug" None BFMatcher
           [small_reference; small_reference] reference (loaded cv2_same "db/")).
  - run.
  - intros d sd. cbn [knnMatch cv2_same cv2]. rewrite length_map, length_seq. lia.
  - repeat constructor; intros d Hd; vm_compute in Hd; inversion Hd; subst; vm_compute;
      discriminate.
Defined.

Lemma uncounted_class_raises_KeyError_witness :
  _detect_object cv2_same np "cat" [reference] reference None (loaded cv2_same "db/")
  = (Raise (KeyError "cat"), logged (loaded cv2_same "db/") [CallKnnMatch des100 des100]).
Proof.
  apply (uncounted_class_raises_KeyError cv2_same np "cat" image100 kps100 des100
           image100 kps100 des100 None (loaded cv2_same "db/") BFMatcher []).
  - run.
  - nonempty.
  - nonempty.
  - run.
  - run.
Defined.

Lemma detect_object_without_matcher_witness :
  _detect_object cv2_same np "mug" [reference] reference None start
  = (Raise (AttributeError "matcher"), start).
Proof.
  apply (detect_object_without_matcher cv2_same np "mug" image100 kps100 des100
           image100 kps100 des100 None start []).
  - reflexivity.
  - nonempty.
  - nonempty.
Defined.

Lemma detections_filed_under_first_characters_witness :
  filed (self (loaded cv2_same "db2/")) "m" [(0, 0, 99, 99); (0, 0, 99, 99)].
Proof.
  refine (detections_filed_under_first_characters cv2_same np image100
            (loaded cv2_same "db2/")
            (fst (default (image100, ∅)
                    (match fst (from_image cv2_same np image100 (loaded cv2_same "db2/")) with
                     | Ok v => Some v
                     | Raise _ => None
                     end)))
            {[ "m" := [(0, 0, 99, 99); (0, 0, 99, 99)] ]}
            (snd (from_image cv2_same np image100 (loaded cv2_same "db2/")))
            _ "m" [(0, 0, 99, 99); (0, 0, 99, 99)] _).
  - run.
  - run.
Defined.

Lemma normalisation_only_for_RootSIFT_witness :
  extract cv2_same np image100 (loaded cv2_same "db/")
  = (Ok (kps100, Some des100),
     logged (loaded cv2_same "db/") [CallDetectAndCompute image100])
  /\ extract cv2_same np image8 rootsift_world
     = (Ok (fst (detectAndCompute cv2_same SIFT_create image8),
            Some [[S754_zero false; S754_finite false 16777215 (-24)];
                  [S754_finite false 11863283 (-24);
                   S754_finite false 11863283 (-24)]]),
        logged rootsift_world [CallDetectAndCompute image8]).
Proof.
  split.
  - apply (proj1 (normalisation_only_for_RootSIFT cv2_same np image100
                    (loaded cv2_same "db/") SIFT_create kps100 (Some des100)
                    ltac:(run) ltac:(run))).
    left. vm_compute. discriminate.
  - apply (proj2 (normalisation_only_for_RootSIFT cv2_same np image8 rootsift_world
                    SIFT_create (fst (detectAndCompute cv2_same SIFT_create image8))
                    (Some [[Z2float32 0; Z2float32 1]; [Z2float32 1; Z2float32 1]])
                    ltac:(run) ltac:(run))).
    + reflexivity.
    + nonempty.
Defined.

Lemma fresh_detector_state_witness :
  current_frame (self (loaded cv2_same "db/")) = 0
  /\ objects (self (loaded cv2_same "db/")) = ["mug"]
  /\ object_counters (self (loaded cv2_same "db/")) !! "mug" = Some 0
  /\ map fst (object_features (self (loaded cv2_same "db/"))) = ["mug"].
Proof.
  pose proof (fresh_detector_state cv2_same np fs "db/" "SIFT" "BF" ["mug"; "IGNORE"]
                start (loaded cv2_same "db/") ltac:(run) ltac:(run)) as T.
  cbv zeta in T. destruct T as (T1 & _ & _ & T4 & T5 & T6 & _).
  assert (Hobjs : objects (self (loaded cv2_same "db/")) = ["mug"]) by run.
  split; [exact T1|]. split; [exact Hobjs|]. split.
  - rewrite T5. rewrite Hobjs. reflexivity.
  - rewrite T6; [exact Hobjs|]. rewrite Hobjs. apply NoDup_singleton.
Defined.

Lemma unknown_detector_type_is_unusable_witness :
  detector (self orb) = None
  /\ object_features (self orb) = [("cup", [])]
  /\ fst (from_image cv2_same np image100 orb) = Raise (AttributeError "detector").
Proof.
  pose proof (unknown_detector_type_is_unusable cv2_same np fs_bare "db4/" "ORB" "BF"
                start orb ltac:(discriminate) ltac:(discriminate) ltac:(discriminate)
                ltac:(run)) as T.
  destruct T as (T1 & _ & T3). split; [exact T1|]. split; [run|].
  now rewrite (proj1 (T3 image100 orb T1)).
Defined.

Lemma unreadable_file_aborts_loading_witness :
  (exists e w', _load_features cv2_same np fs_bare "doc" doc_world = (Raise e, w')
                /\ self w' = self doc_world)
  /\ exists e, fst (__init__ cv2_same np fs_bare "db5/" "SIFT" "BF" start) = Raise e.
Proof.
  pose proof (unreadable_file_aborts_loading cv2_same np fs_bare "doc" doc_world
                ["notes.txt"] "notes.txt") as T.
  cbv zeta in T.
  destruct T as [T1 T2]; [run|apply elem_of_cons; left; reflexivity|run|run|].
  split; [exact T1|].
  apply (T2 ["doc"] "db5/" "SIFT" "BF" start); [reflexivity|run|].
  vm_compute. apply elem_of_cons. left. reflexivity.
Defined.

End Checks.
